(** * props.c of btrfs-progs: property handlers and the device resolver

    A shallow embedding of [props.c].  Every function of the file is a
    program over the calls it makes to its collaborators (libc, the kernel,
    libbtrfsutil, the helpers of common/utils.c); the collaborators'
    answers are not modelled: an execution is a path through the program,
    one answer per call, and the theorems range over all of them. *)

From Stdlib Require Import ZArith List String Ascii Bool Lia DecimalString.
Import ListNotations.

Local Open Scope string_scope.
Local Open Scope list_scope.
Local Open Scope Z_scope.

(** String concatenation, apart from the one of lists. *)
Infix "+++" := String.append (right associativity, at level 60).

(** ** C scalars *)

Definition INT_MAX : Z := 2147483647.
Definition ULLONG_MAX : Z := 18446744073709551615.

(** Conversion to [int] (two's complement, 32 bits) and to [u64]. *)
Definition cast_int (z : Z) : Z := (z + 2 ^ 31) mod 2 ^ 32 - 2 ^ 31.
Definition cast_u64 (z : Z) : Z := z mod 2 ^ 64.

(** [~x] on a [u64]. *)
Definition not_u64 (x : Z) : Z := Z.land (Z.lnot x) (Z.ones 64).

(** errno values of <errno.h> (Linux). *)
Definition EPERM : Z := 1.
Definition ENOMEM : Z := 12.
Definition ENODEV : Z := 19.
Definition EINVAL : Z := 22.
Definition ENODATA : Z := 61.
(** [#ifndef ENOATTR / #define ENOATTR ENODATA] *)
Definition ENOATTR : Z := ENODATA.

(** <fcntl.h> *)
Definition O_RDONLY : Z := 0.
Definition O_RDWR : Z := 2.

(** <limits.h> *)
Definition PATH_MAX : Z := 4096.

Definition XATTR_BTRFS_PREFIX : string := "btrfs.".
Definition XATTR_BTRFS_PREFIX_LEN : Z := Z.of_nat (String.length XATTR_BTRFS_PREFIX).

Definition strlen (s : string) : Z := Z.of_nat (String.length s).

(** [major()] and [minor()] of <sys/sysmacros.h> (glibc) on a 64-bit [dev_t]. *)
Definition major (dev : Z) : Z :=
  Z.lor (Z.land (Z.shiftr dev 32) 4294963200) (Z.land (Z.shiftr dev 8) 4095).
Definition minor (dev : Z) : Z :=
  Z.lor (Z.land (Z.shiftr dev 12) 4294967040) (Z.land dev 255).

Definition newline : string := String (ascii_of_nat 10) EmptyString.

(** [%d] and [%llu] of printf. *)
Definition dec (z : Z) : string := NilZero.string_of_int (Z.to_int z).

(** [%.*s]: at most [n] bytes of [s], up to its first NUL; a negative
    precision counts as none given. *)
Fixpoint until_nul (s : string) : string :=
  match s with
  | EmptyString => EmptyString
  | String c s' => if Ascii.eqb c zero then EmptyString else String c (until_nul s')
  end.

Definition prec_s (n : Z) (s : string) : string :=
  if n <? 0 then until_nul s
  else String.substring 0 (Z.to_nat n) (until_nul s).

(** ** The [%llu] conversion of sscanf

    White space is skipped, an optional sign is read, then the longest run
    of decimal digits; with no digit the conversion fails and sscanf
    returns 0 (or EOF).  The value is the one of strtoull: it saturates at
    [ULLONG_MAX], and a minus sign negates it modulo 2^64. *)

Definition is_space (c : ascii) : bool :=
  let n := Z.of_N (N_of_ascii c) in
  (n =? 32) || ((9 <=? n) && (n <=? 13)).

Definition digit_of (c : ascii) : option Z :=
  let n := Z.of_N (N_of_ascii c) in
  if (48 <=? n) && (n <=? 57) then Some (n - 48) else None.

Fixpoint skip_space (s : string) : string :=
  match s with
  | String c s' => if is_space c then skip_space s' else s
  | EmptyString => s
  end.

(** The digits read so far are worth [acc]; [seen] tells whether there was one. *)
Fixpoint scan_digits (s : string) (acc : Z) (seen : bool) : option Z :=
  match s with
  | EmptyString => if seen then Some acc else None
  | String c s' =>
      match digit_of c with
      | Some d => scan_digits s' (10 * acc + d) true
      | None => if seen then Some acc else None
      end
  end.

Definition strtoull_value (neg : bool) (n : Z) : Z :=
  if ULLONG_MAX <? n then ULLONG_MAX
  else if neg then cast_u64 (- n) else n.

Definition sscanf_llu (s : string) : option Z :=
  match skip_space s with
  | EmptyString => None
  | String c s' =>
      if Ascii.eqb c "-" then option_map (strtoull_value true) (scan_digits s' 0 false)
      else if Ascii.eqb c "+" then option_map (strtoull_value false) (scan_digits s' 0 false)
      else option_map (strtoull_value false) (scan_digits (String c s') 0 false)
  end.

(** ** Declarations of the headers that props.c includes

    [kernel-shared/ctree.h], [ioctl.h] and [props.h] give the constants
    below; props.c only names them, so they are parameters here. *)

Record headers : Type := {
  BTRFS_DEV_ALLOCATION_MASK : Z;
  BTRFS_DEV_ALLOCATION_PREFERRED_METADATA : Z;
  BTRFS_DEV_ALLOCATION_METADATA_ONLY : Z;
  BTRFS_DEV_ALLOCATION_PREFERRED_DATA : Z;
  BTRFS_DEV_ALLOCATION_DATA_ONLY : Z;
  BTRFS_DEV_PROPERTY_TYPE : Z;
  BTRFS_DEV_PROPERTY_READ : Z;
  prop_object_dev : Z;
  prop_object_root : Z;
  prop_object_subvol : Z;
  prop_object_inode : Z
}.

(** Each tag of [enum prop_object_type] is a flag that is not zero. *)
Definition wf_object_types (K : headers) : Prop :=
  0 < prop_object_dev K /\ 0 < prop_object_root K /\
  0 < prop_object_subvol K /\ 0 < prop_object_inode K.

(** Modelled from the spec: [struct btrfs_ioctl_dev_info_args] of ioctl.h
    is not among the sources; the per-device query gives a device id and
    the path of the device, or no path for a missing device (the test
    [!dev_info.path] of the resolver). *)
Record dev_info_args : Type := {
  di_devid : Z;
  di_path : option string
}.

(** Modelled from the spec: [struct btrfs_ioctl_dev_properties] of ioctl.h
    is not among the sources; a request carries the target device id, the
    bits that select the fields, and the type bits. *)
Record dev_properties : Type := {
  dp_devid : Z;
  dp_properties : Z;
  dp_type : Z
}.

(** ** Calls to the collaborators *)

Inductive call : Type :=
| Errno                                   (* a read of errno *)
| Error (msg : string)                    (* error(fmt, ...); %m is left as it is *)
| Printf (line : string)                  (* printf / fprintf(stdout, ...) *)
| Btrfs_util_set_subvolume_read_only (object : string) (read_only : bool)
| Btrfs_util_get_subvolume_read_only (object : string)
| Error_btrfs_util (err : Z)
| Set_label (object value : string)
| Get_label (object : string)
| Open_file_or_dir3 (object : string) (open_flags : Z)
| Close_file_or_dir (fd : Z)
| Malloc (size : Z)
| Free (p : Z)
| Fsetxattr (fd : Z) (name value : string) (size flags : Z)
| Fgetxattr (fd : Z) (name : string) (buf size : Z)
| Get_btrfs_mount (devpath : string) (maxpath : Z)
| Btrfs_open_dir (path : string) (verbose : Z)
| Stat (path : string)
| Ioctl_fs_info (fd : Z)
| Get_device_info (fd devid : Z)
| Ioctl_dev_properties (fd : Z) (props : dev_properties).

(** What each call gives back: the returned value, then what it wrote
    through its pointer arguments. *)
Definition resp (c : call) : Type :=
  match c with
  | Errno => Z
  | Error _ => unit
  | Printf _ => unit
  | Btrfs_util_set_subvolume_read_only _ _ => Z
  | Btrfs_util_get_subvolume_read_only _ => Z * bool
  | Error_btrfs_util _ => unit
  | Set_label _ _ => Z
  | Get_label _ => Z * string
  | Open_file_or_dir3 _ _ => Z
  | Close_file_or_dir _ => unit
  | Malloc _ => Z
  | Free _ => unit
  | Fsetxattr _ _ _ _ _ => Z
  | Fgetxattr _ _ _ _ => Z * string
  | Get_btrfs_mount _ _ => Z * string
  | Btrfs_open_dir _ _ => Z
  | Stat _ => Z * Z
  | Ioctl_fs_info _ => Z * Z
  | Get_device_info _ _ => Z * dev_info_args
  | Ioctl_dev_properties _ _ => Z * dev_properties
  end.

(** ** Programs *)

Inductive prog (A : Type) : Type :=
| Ret (a : A)
| Vis (c : call) (k : resp c -> prog A).

Arguments Ret {A} a.
Arguments Vis {A} c k.

Fixpoint bind {A B : Type} (p : prog A) (f : A -> prog B) : prog B :=
  match p with
  | Ret a => f a
  | Vis c k => Vis c (fun x => bind (k x) f)
  end.

Definition do (c : call) : prog (resp c) := Vis c Ret.

Declare Scope prog_scope.
Delimit Scope prog_scope with prog.
Notation "x <- p ;; q" := (bind p (fun x => q))
  (at level 61, p at next level, right associativity) : prog_scope.
Notation "' pat <- p ;; q" := (bind p (fun x => match x with pat => q end))
  (at level 61, pat pattern, p at next level, right associativity) : prog_scope.
Notation "p ;;; q" := (bind p (fun _ => q))
  (at level 61, right associativity) : prog_scope.
Local Open Scope prog_scope.

(** ** Executions *)

Record event : Type := Ev { ev_call : call; ev_resp : resp ev_call }.

Definition trace : Type := list event.

Inductive exec {A : Type} : prog A -> trace -> A -> Prop :=
| exec_ret (a : A) : exec (Ret a) [] a
| exec_vis (c : call) (k : resp c -> prog A) (x : resp c) (t : trace) (a : A) :
    exec (k x) t a -> exec (Vis c k) (Ev c x :: t) a.

(** An environment that answers a call the same way each time. *)
Definition oracle : Type := forall c : call, resp c.

Fixpoint run {A : Type} (o : oracle) (p : prog A) : A * trace :=
  match p with
  | Ret a => (a, [])
  | Vis c k => let (a, t) := run o (k (o c)) in (a, Ev c (o c) :: t)
  end.

(** Weakest precondition over all answers; [pre] is the trace so far. *)
Fixpoint wp {A : Type} (p : prog A) (pre : trace) (Q : trace -> A -> Prop) : Prop :=
  match p with
  | Ret a => Q pre a
  | Vis c k => forall x : resp c, wp (k x) (pre ++ [Ev c x]) Q
  end.

(** ** props.c *)

(** The signature shared by the handlers: the object type, the object,
    the property name and the value, which is [None] when it is NULL. *)
Definition prop_handler_t : Type := Z -> string -> string -> option string -> prog Z.

Definition prop_read_only (type : Z) (object name : string) (value : option string)
  : prog Z :=
  match value with
  | Some value =>
      let set (read_only : bool) : prog Z :=
        err <- do (Btrfs_util_set_subvolume_read_only object read_only) ;;
        if negb (err =? 0) then
          do (Error_btrfs_util err) ;;;
          e <- do Errno ;;
          Ret (- e)
        else Ret 0 in
      if String.eqb value "true" then set true
      else if String.eqb value "false" then set false
      else
        do (Error ("invalid value for property: " +++ value)) ;;;
        Ret (- EINVAL)
  | None =>
      '(err, read_only) <- do (Btrfs_util_get_subvolume_read_only object) ;;
      if negb (err =? 0) then
        do (Error_btrfs_util err) ;;;
        e <- do Errno ;;
        Ret (- e)
      else
        do (Printf ("ro=" +++ (if read_only then "true" else "false") +++ newline)) ;;;
        Ret 0
  end.

Definition prop_label (type : Z) (object name : string) (value : option string)
  : prog Z :=
  match value with
  | Some value => do (Set_label object value)
  | None =>
      '(ret, label) <- do (Get_label object) ;;
      if ret =? 0 then
        do (Printf ("label=" +++ label +++ newline)) ;;;
        Ret ret
      else Ret ret
  end.

(** The label [out:] of [prop_compression]; [free(NULL)] does nothing
    and is not a call. *)
Definition free (p : Z) : prog unit :=
  if p =? 0 then Ret tt else do (Free p).

Definition out_compression (ret xattr_name buf fd : Z) : prog Z :=
  free xattr_name ;;;
  free buf ;;;
  (if 0 <=? fd then do (Close_file_or_dir fd) else Ret tt) ;;;
  Ret ret.

Definition prop_compression (type : Z) (object name : string) (value : option string)
  : prog Z :=
  let open_flags := match value with Some _ => O_RDWR | None => O_RDONLY end in
  fd <- do (Open_file_or_dir3 object open_flags) ;;
  if fd =? -1 then
    e <- do Errno ;;
    do (Error ("failed to open " +++ object +++ ": %m")) ;;;
    out_compression (- e) 0 0 fd
  else
    xattr_name <- do (Malloc (XATTR_BTRFS_PREFIX_LEN + strlen name + 1)) ;;
    if xattr_name =? 0 then out_compression (- ENOMEM) xattr_name 0 fd
    else
      let xattr := XATTR_BTRFS_PREFIX +++ name in
      sret <- match value with
              | Some value =>
                  let value :=
                    if String.eqb value "no" || String.eqb value "none"
                    then EmptyString else value in
                  do (Fsetxattr fd xattr value (strlen value) 0)
              | None =>
                  '(sret, _) <- do (Fgetxattr fd xattr 0 0) ;;
                  Ret sret
              end ;;
      if sret <? 0 then
        e <- do Errno ;;
        if negb (- e =? - ENOATTR) then
          do (Error ("failed to "
                     +++ match value with Some _ => "set" | None => "get" end
                     +++ " compression for " +++ object +++ ": %m")) ;;;
          out_compression (- e) xattr_name 0 fd
        else out_compression 0 xattr_name 0 fd
      else
        match value with
        | Some _ => out_compression 0 xattr_name 0 fd
        | None =>
            let len := sret in
            buf <- do (Malloc len) ;;
            if buf =? 0 then out_compression (- ENOMEM) xattr_name buf fd
            else
              '(sret, data) <- do (Fgetxattr fd xattr buf len) ;;
              if sret <? 0 then
                e <- do Errno ;;
                do (Error ("failed to get compression for " +++ object +++ ": %m")) ;;;
                out_compression (- e) xattr_name buf fd
              else
                do (Printf ("compression=" +++ prec_s (cast_int len) data +++ newline)) ;;;
                out_compression 0 xattr_name buf fd
        end.

(** The loop of [btrfs_find_devid_and_mnt]; [n] counts the ids left, from
    [i] to [fi_args.max_id].  The result is [ret] and what was stored
    through [devid], if anything; every way out of the loop goes on to
    [out:].  ([i] is an [int]: past [INT_MAX] the C loop is undefined.) *)
Fixpoint scan_devices (devpath : string) (fd stdevpath : Z) (n : nat) (i : Z)
  : prog (Z * option Z) :=
  match n with
  | O => Ret (-12, None)
  | S n' =>
      '(ret, dev_info) <- do (Get_device_info fd i) ;;
      if ret =? - ENODEV then scan_devices devpath fd stdevpath n' (i + 1)
      else if negb (ret =? 0) then
        do (Error ("cannot get info about device devid=" +++ dec i)) ;;;
        Ret (ret, None)
      else
        match di_path dev_info with
        | None => (* missing devices *)
            scan_devices devpath fd stdevpath n' (i + 1)
        | Some path =>
            '(ret, st) <- do (Stat path) ;;
            if negb (ret =? 0) then
              do (Error ("cannot stat '" +++ devpath +++ "'")) ;;;
              Ret (ret, None)
            else if (major st =? major stdevpath) && (minor st =? minor stdevpath)
            then Ret (0, Some (cast_int (di_devid dev_info)))
            else scan_devices devpath fd stdevpath n' (i + 1)
        end
  end.

(** Returns [ret], what was stored through [devid] if anything, and the
    content of [path]. *)
Definition btrfs_find_devid_and_mnt (devpath : string) (maxpath : Z)
  : prog (Z * option Z * string) :=
  '(ret, path) <- do (Get_btrfs_mount devpath maxpath) ;;
  if negb (ret =? 0) then Ret (ret, None, path)
  else
    fd <- do (Btrfs_open_dir path 1) ;;
    if fd <? 0 then Ret (fd, None, path)
    else
      '(ret, stdevpath) <- do (Stat devpath) ;;
      if negb (ret =? 0) then
        do (Error ("cannot stat '" +++ devpath +++ "'")) ;;;
        do (Close_file_or_dir fd) ;;;
        Ret (ret, None, path)
      else
        '(ret, max_id) <- do (Ioctl_fs_info fd) ;;
        if ret <? 0 then
          e <- do Errno ;;
          if e =? EPERM then Ret (- e, None, path)
          else
            do (Error "cannot get filesystem info: %m") ;;;
            do (Close_file_or_dir fd) ;;;
            Ret (-10, None, path)
        else
          '(ret, devid) <- scan_devices devpath fd stdevpath (Z.to_nat (max_id + 1)) 0 ;;
          do (Close_file_or_dir fd) ;;;
          Ret (ret, devid, path).

(** An [int] that was never assigned is indeterminate.  [prop_allocation_hint]
    reads [devid] only after the resolver returned 0, and then it was
    assigned (lemma [find_devid_zero_assigns]). *)
Definition int_of_out (d : option Z) : Z :=
  match d with Some z => z | None => 0 end.

Section WithHeaders.

Variable K : headers.

(** [allocation_hint_description], with its terminator [{0, NULL}]. *)
Definition allocation_hint_description : list (Z * option string) :=
  [ (BTRFS_DEV_ALLOCATION_PREFERRED_METADATA K, Some "PREFERRED_METADATA");
    (BTRFS_DEV_ALLOCATION_METADATA_ONLY K, Some "METADATA_ONLY");
    (BTRFS_DEV_ALLOCATION_PREFERRED_DATA K, Some "PREFERRED_DATA");
    (BTRFS_DEV_ALLOCATION_DATA_ONLY K, Some "DATA_ONLY");
    (0, None) ].

(** [for (i = 0; tbl[i].descr; i++) if (v == tbl[i].value) break;]
    the result is [tbl[i].descr] at the end of the loop. *)
Fixpoint descr_of_value (v : Z) (tbl : list (Z * option string)) : option string :=
  match tbl with
  | (value, Some descr) :: tbl' =>
      if v =? value then Some descr else descr_of_value v tbl'
  | _ => None
  end.

(** [for (i = 0; tbl[i].descr; i++) if (!strcmp(value, tbl[i].descr)) break;]
    the result is [tbl[i].value] if [tbl[i].descr] is not NULL at the end. *)
Fixpoint value_of_descr (s : string) (tbl : list (Z * option string)) : option Z :=
  match tbl with
  | (value, Some descr) :: tbl' =>
      if String.eqb s descr then Some value else value_of_descr s tbl'
  | _ => None
  end.

Definition prop_allocation_hint (type : Z) (object name : string) (value : option string)
  : prog Z :=
  '(ret, devid, path) <- btrfs_find_devid_and_mnt object PATH_MAX ;;
  if negb (ret =? 0) then Ret (-5)
  else
    let devid := int_of_out devid in
    fd <- do (Btrfs_open_dir path 1) ;;
    if fd <? 0 then Ret fd
    else
      let out (ret : Z) : prog Z := do (Close_file_or_dir fd) ;;; Ret ret in
      let props :=
        {| dp_devid := cast_u64 devid;
           dp_properties :=
             Z.lor (BTRFS_DEV_PROPERTY_TYPE K) (BTRFS_DEV_PROPERTY_READ K);
           dp_type := 0 |} in
      '(ret, props) <- do (Ioctl_dev_properties fd props) ;;
      if ret <? 0 then
        do (Error ("Cannot perform BTRFS_IOC_DEV_PROPERTIES ioctl on '"
                   +++ path +++ "'")) ;;;
        out (-1)
      else
        let mask := BTRFS_DEV_ALLOCATION_MASK K in
        match value with
        | None =>
            let v := Z.land (dp_type props) mask in
            match descr_of_value v allocation_hint_description with
            | Some descr =>
                do (Printf ("devid=" +++ dec devid +++ ", path=" +++ object
                            +++ ": allocation_hint=" +++ descr +++ newline)) ;;;
                out 0
            | None =>
                do (Printf ("devid=" +++ dec devid +++ ", path=" +++ object
                            +++ ": allocation_hint=unknown:" +++ dec v +++ newline)) ;;;
                out 0
            end
        | Some value =>
            let invalid : prog Z :=
              do (Error ("Invalid value '" +++ value +++ "'" +++ newline)) ;;;
              out (-3) in
            let write (v : Z) : prog Z :=
              let type := Z.land (dp_type props) (not_u64 mask) in
              let type := Z.lor type (Z.land v mask) in
              let props :=
                {| dp_devid := cast_u64 devid;
                   dp_properties := BTRFS_DEV_PROPERTY_TYPE K;
                   dp_type := type |} in
              '(ret, _) <- do (Ioctl_dev_properties fd props) ;;
              if ret <? 0 then
                do (Error ("Cannot perform BTRFS_IOC_DEV_PROPERTIES ioctl on '"
                           +++ path +++ "'")) ;;;
                out (-4)
              else out 0 in
            match value_of_descr value allocation_hint_description with
            | Some v => write v
            | None =>
                match sscanf_llu value with
                | None => invalid
                | Some v =>
                    if negb (Z.land v (not_u64 mask) =? 0) then invalid
                    else write v
                end
            end
        end.

End WithHeaders.

(** ** The table of properties

    The entries are written as C initializer lists, and built the way C
    reads them: an initializer with a designator sets that field, one
    without sets the field after the one set last, and a field that is
    not set is zero. *)

Inductive field : Type := f_name | f_desc | f_read_only | f_types | f_handler.

Inductive cvalue : Type :=
| VNull
| VInt (z : Z)
| VStr (s : string)
| VFun (h : prop_handler_t).

Inductive initializer : Type :=
| Designated (f : field) (v : cvalue)
| Positional (v : cvalue).

(** Modelled from the spec: [struct prop_handler] of props.h is not among
    the sources; a descriptor has a name, a description, the read-only
    mark, the applicable types and the handler, in this order (the
    terminator [{NULL, NULL, 0, 0, NULL}] of the table gives one value to
    each). *)
Record prop_handler : Type := {
  name : option string;
  desc : option string;
  read_only : Z;
  types : Z;
  handler : option prop_handler_t
}.

Definition next_field (f : field) : option field :=
  match f with
  | f_name => Some f_desc
  | f_desc => Some f_read_only
  | f_read_only => Some f_types
  | f_types => Some f_handler
  | f_handler => None
  end.

Definition as_str (v : cvalue) : option string :=
  match v with VStr s => Some s | _ => None end.
Definition as_int (v : cvalue) : Z :=
  match v with VInt z => z | _ => 0 end.
Definition as_fun (v : cvalue) : option prop_handler_t :=
  match v with VFun h => Some h | _ => None end.

Definition set_field (f : field) (v : cvalue) (s : prop_handler) : prop_handler :=
  match f with
  | f_name =>
      {| name := as_str v; desc := desc s; read_only := read_only s;
         types := types s; handler := handler s |}
  | f_desc =>
      {| name := name s; desc := as_str v; read_only := read_only s;
         types := types s; handler := handler s |}
  | f_read_only =>
      {| name := name s; desc := desc s; read_only := as_int v;
         types := types s; handler := handler s |}
  | f_types =>
      {| name := name s; desc := desc s; read_only := read_only s;
         types := as_int v; handler := handler s |}
  | f_handler =>
      {| name := name s; desc := desc s; read_only := read_only s;
         types := types s; handler := as_fun v |}
  end.

Definition zeroed : prop_handler :=
  {| name := None; desc := None; read_only := 0; types := 0; handler := None |}.

(** [cur] is the field that an initializer without designator sets. *)
Fixpoint init_struct (l : list initializer) (cur : option field) (s : prop_handler)
  : prop_handler :=
  match l with
  | [] => s
  | Designated f v :: l' => init_struct l' (next_field f) (set_field f v s)
  | Positional v :: l' =>
      match cur with
      | Some f => init_struct l' (next_field f) (set_field f v s)
      | None => s
      end
  end.

Definition build (l : list initializer) : prop_handler :=
  init_struct l (Some f_name) zeroed.

Section Registry.

Variable K : headers.

Definition prop_handlers : list prop_handler :=
  [ build
      [ Designated f_name (VStr "ro");
        Designated f_desc (VStr "read-only status of a subvolume");
        Designated f_read_only (VInt 0);
        Designated f_types (VInt (prop_object_subvol K));
        Designated f_handler (VFun prop_read_only) ];
    build
      [ Designated f_name (VStr "label");
        Designated f_desc (VStr "label of the filesystem");
        Designated f_read_only (VInt 0);
        Designated f_types
          (VInt (Z.lor (prop_object_dev K) (prop_object_root K)));
        Designated f_handler (VFun prop_label) ];
    build
      [ Designated f_name (VStr "compression");
        Designated f_desc (VStr "compression algorithm for the file or directory");
        Designated f_read_only (VInt 0);
        Designated f_types (VInt (prop_object_inode K));
        Positional (VFun prop_compression) ];
    build
      [ Designated f_name (VStr "allocation_hint");
        Designated f_desc (VStr "hint to store the data/metadata chunks");
        Designated f_types (VInt (prop_object_dev K));
        Designated f_handler (VFun (prop_allocation_hint K)) ];
    build
      [ Positional VNull; Positional VNull; Positional (VInt 0);
        Positional (VInt 0); Positional VNull ] ].

(** The entries of the table: those before the terminator, whose
    [name] is NULL. *)
Fixpoint entries (tbl : list prop_handler) : list prop_handler :=
  match tbl with
  | [] => []
  | e :: tbl' =>
      match name e with
      | None => []
      | Some _ => e :: entries tbl'
      end
  end.

Definition registry : list prop_handler := entries prop_handlers.

Definition names (l : list prop_handler) : list string :=
  flat_map (fun e => match name e with Some n => [n] | None => [] end) l.

(** [lookup]: the first entry of that name. *)
Definition lookup (n : string) : option prop_handler :=
  find (fun e => match name e with Some m => String.eqb n m | None => false end)
       registry.

End Registry.

(** ** What a trace shows *)

(** The lines written to stdout. *)
Definition printed (t : trace) : list string :=
  flat_map (fun e => match e with Ev (Printf line) _ => [line] | _ => [] end) t.

(** The messages given to [error]. *)
Definition errors (t : trace) : list string :=
  flat_map (fun e => match e with Ev (Error msg) _ => [msg] | _ => [] end) t.

(** The calls of [btrfs_util_set_subvolume_read_only]: object, flag, result. *)
Definition set_read_only_calls (t : trace) : list (string * bool * Z) :=
  flat_map
    (fun e =>
       match e with
       | Ev c x =>
           match c return resp c -> list (string * bool * Z) with
           | Btrfs_util_set_subvolume_read_only object b => fun err => [(object, b, err)]
           | _ => fun _ => []
           end x
       end) t.

(** The device property exchanges: handle, request, result and answer. *)
Definition exchanges (t : trace) : list (Z * dev_properties * (Z * dev_properties)) :=
  flat_map
    (fun e =>
       match e with
       | Ev c x =>
           match c return resp c -> list (Z * dev_properties * (Z * dev_properties)) with
           | Ioctl_dev_properties fd props => fun r => [(fd, props, r)]
           | _ => fun _ => []
           end x
       end) t.

(** The device ids asked with [get_device_info], in the order of the calls. *)
Definition queried (t : trace) : list Z :=
  flat_map (fun e => match e with Ev (Get_device_info _ i) _ => [i] | _ => [] end) t.

(** The attribute writes: attribute name, value, size, and result. *)
Definition xattr_writes (t : trace) : list (string * string * Z * Z) :=
  flat_map
    (fun e =>
       match e with
       | Ev c x =>
           match c return resp c -> list (string * string * Z * Z) with
           | Fsetxattr _ n v size _ => fun sret => [(n, v, size, sret)]
           | _ => fun _ => []
           end x
       end) t.

(** The value of errno that the program reads next, if that is what it
    does next. *)
Definition next_errno (t : trace) : option Z :=
  match t with
  | Ev Errno e :: _ => Some e
  | _ => None
  end.

(** Handles and buffers that were obtained and not given back. *)
Inductive resource : Type :=
| Handle (fd : Z)
| Buffer (p : Z).

Definition resource_eqb (a b : resource) : bool :=
  match a, b with
  | Handle x, Handle y => x =? y
  | Buffer x, Buffer y => x =? y
  | _, _ => false
  end.

Fixpoint release (r : resource) (held : list resource) : list resource :=
  match held with
  | [] => []
  | h :: held' => if resource_eqb r h then held' else h :: release r held'
  end.

Definition track (held : list resource) (e : event) : list resource :=
  match e with
  | Ev c x =>
      match c return resp c -> list resource with
      | Open_file_or_dir3 _ _ => fun fd => if 0 <=? fd then Handle fd :: held else held
      | Btrfs_open_dir _ _ => fun fd => if 0 <=? fd then Handle fd :: held else held
      | Malloc _ => fun p => if p =? 0 then held else Buffer p :: held
      | Close_file_or_dir fd => fun _ => release (Handle fd) held
      | Free p => fun _ => release (Buffer p) held
      | _ => fun _ => held
      end x
  end.

Definition leaked_from (held : list resource) (t : trace) : list resource :=
  fold_left track t held.

Definition leaked (t : trace) : list resource := leaked_from [] t.


(** The calls that the loop of the resolver makes. *)
Definition scan_event (e : event) : Prop :=
  match e with
  | Ev (Get_device_info _ _) _ | Ev (Stat _) _ | Ev (Error _) _ => True
  | _ => False
  end.

(** ** The candidates of the device resolver

    What an environment [o] answers about the device id [i], asked
    through the handle [fd], for an input device of number [rdev]. *)

Definition same_device (st rdev : Z) : Prop :=
  major st = major rdev /\ minor st = minor rdev.

(** The id is passed over: no such device, or no path, or a path that
    is another device. *)
Definition candidate_passed (o : oracle) (fd rdev i : Z) : Prop :=
  fst (o (Get_device_info fd i)) = - ENODEV \/
  (fst (o (Get_device_info fd i)) = 0 /\
   match di_path (snd (o (Get_device_info fd i))) with
   | None => True
   | Some p => fst (o (Stat p)) = 0 /\ ~ same_device (snd (o (Stat p))) rdev
   end).

(** The id is the input device; [d] is the device id that the query reports. *)
Definition candidate_matches (o : oracle) (fd rdev i d : Z) : Prop :=
  fst (o (Get_device_info fd i)) = 0 /\
  d = di_devid (snd (o (Get_device_info fd i))) /\
  exists p,
    di_path (snd (o (Get_device_info fd i))) = Some p /\
    fst (o (Stat p)) = 0 /\ same_device (snd (o (Stat p))) rdev.

(** The query about the id fails with [e], or the stat of its path does. *)
Definition candidate_fails (o : oracle) (fd i e : Z) : Prop :=
  (fst (o (Get_device_info fd i)) = e /\ e <> - ENODEV /\ e <> 0) \/
  (fst (o (Get_device_info fd i)) = 0 /\
   exists p,
     di_path (snd (o (Get_device_info fd i))) = Some p /\
     fst (o (Stat p)) = e /\ e <> 0).

(** The ids [i], [i + 1], ... ([n] of them). *)
Fixpoint ids (i : Z) (n : nat) : list Z :=
  match n with
  | O => []
  | S n' => i :: ids (i + 1) n'
  end.

(** What the resolver leaves in a trace, and what it returns, in every
    execution: no device property exchange, no line printed, and a device
    id whenever the result is 0. *)
Definition resolver_post (pre : trace) (t : trace) (res : Z * option Z) : Prop :=
  exists t1,
    t = pre ++ t1 /\ exchanges t1 = [] /\ printed t1 = [] /\
    (fst res = 0 -> exists d, snd res = Some d).

(** ** Values of the allocation hint *)

Section HintValues.

Variable K : headers.

Definition is_class_name (value : string) : Prop :=
  value = "PREFERRED_METADATA" \/ value = "METADATA_ONLY" \/
  value = "PREFERRED_DATA" \/ value = "DATA_ONLY".

Definition class_value (value : string) (v : Z) : Prop :=
  (value = "PREFERRED_METADATA" /\ v = BTRFS_DEV_ALLOCATION_PREFERRED_METADATA K) \/
  (value = "METADATA_ONLY" /\ v = BTRFS_DEV_ALLOCATION_METADATA_ONLY K) \/
  (value = "PREFERRED_DATA" /\ v = BTRFS_DEV_ALLOCATION_PREFERRED_DATA K) \/
  (value = "DATA_ONLY" /\ v = BTRFS_DEV_ALLOCATION_DATA_ONLY K).

(** A value that a set accepts, with the bits it stands for: a class
    name, or else an integer with no bit outside the allocation mask. *)
Definition accepted_value (value : string) (v : Z) : Prop :=
  class_value value v \/
  (~ is_class_name value /\ sscanf_llu value = Some v /\
   Z.land v (not_u64 (BTRFS_DEV_ALLOCATION_MASK K)) = 0).

(** A value that is no class name and either no integer or one with a
    bit outside the allocation mask. *)
Definition rejected_value (value : string) : Prop :=
  ~ is_class_name value /\
  (sscanf_llu value = None \/
   exists v, sscanf_llu value = Some v /\
             Z.land v (not_u64 (BTRFS_DEV_ALLOCATION_MASK K)) <> 0).

(** The request that reads the type bits, and the one that writes them. *)
Definition read_request (devid : Z) : dev_properties :=
  {| dp_devid := devid;
     dp_properties := Z.lor (BTRFS_DEV_PROPERTY_TYPE K) (BTRFS_DEV_PROPERTY_READ K);
     dp_type := 0 |}.

Definition write_request (devid type : Z) : dev_properties :=
  {| dp_devid := devid;
     dp_properties := BTRFS_DEV_PROPERTY_TYPE K;
     dp_type := type |}.

(** The stored bits [cur] with those of the allocation mask replaced by [v]'s. *)
Definition merged_type (cur v : Z) : Z :=
  Z.lor (Z.land cur (not_u64 (BTRFS_DEV_ALLOCATION_MASK K)))
        (Z.land v (BTRFS_DEV_ALLOCATION_MASK K)).

(** The text shown for the allocation bits [v]: the first class of the
    table with this value, or the number. *)
Definition hint_text (v : Z) : string :=
  if v =? BTRFS_DEV_ALLOCATION_PREFERRED_METADATA K then "PREFERRED_METADATA"
  else if v =? BTRFS_DEV_ALLOCATION_METADATA_ONLY K then "METADATA_ONLY"
  else if v =? BTRFS_DEV_ALLOCATION_PREFERRED_DATA K then "PREFERRED_DATA"
  else if v =? BTRFS_DEV_ALLOCATION_DATA_ONLY K then "DATA_ONLY"
  else "unknown:" +++ dec v.

Definition hint_line (devid : Z) (object text : string) : string :=
  "devid=" +++ dec devid +++ ", path=" +++ object +++ ": allocation_hint="
  +++ text +++ newline.

(** What the validation of a set makes of [value]. *)
Definition validated (value : string) : option Z :=
  match value_of_descr value (allocation_hint_description K) with
  | Some v => Some v
  | None =>
      match sscanf_llu value with
      | Some v =>
          if Z.land v (not_u64 (BTRFS_DEV_ALLOCATION_MASK K)) =? 0
          then Some v else None
      | None => None
      end
  end.

(** The executions of a set, by their device property exchanges. *)
Definition set_outcome (object value : string) (t : trace) (ret : Z) : Prop :=
  exchanges t = [] \/
  exists fd devid r cur,
    (r < 0 /\ exchanges t = [(fd, read_request devid, (r, cur))] /\ ret = -1) \/
    (0 <= r /\
     match validated value with
     | Some v =>
         exists wr,
           exchanges t =
           [(fd, read_request devid, (r, cur));
            (fd, write_request devid (merged_type (dp_type cur) v), wr)] /\
           (fst wr < 0 -> ret = -4) /\ (0 <= fst wr -> ret = 0)
     | None =>
         exchanges t = [(fd, read_request devid, (r, cur))] /\ ret = -3
     end).

(** The executions of a get, by their device property exchanges. *)
Definition get_outcome (object : string) (t : trace) (ret : Z) : Prop :=
  exchanges t = [] \/
  exists fd devid r cur,
    exchanges t = [(fd, read_request (cast_u64 devid), (r, cur))] /\
    ((r < 0 /\ ret = -1 /\ printed t = []) \/
     (0 <= r /\ ret = 0 /\
      printed t =
      [hint_line devid object
         (hint_text (Z.land (dp_type cur) (BTRFS_DEV_ALLOCATION_MASK K)))])).

End HintValues.

(** [s] ends with [suffix]. *)
Definition ends_with (s suffix : string) : bool :=
  (String.length suffix <=? String.length s)%nat &&
  String.eqb
    (String.substring (String.length s - String.length suffix)
                      (String.length suffix) s)
    suffix.




(** ** A set followed by a get *)

Definition set_then_get (type : Z) (object name value : string) : prog (Z * Z) :=
  r1 <- prop_compression type object name (Some value) ;;
  r2 <- prop_compression type object name None ;;
  Ret (r1, r2).

(** The object that the descriptor [fd] stands for, among the
    descriptors that are open, and the descriptors left when [fd] is
    closed. *)
Fixpoint object_of (fd : Z) (fds : list (Z * string)) : option string :=
  match fds with
  | [] => None
  | (fd', object) :: fds' => if fd =? fd' then Some object else object_of fd fds'
  end.

Fixpoint closed (fd : Z) (fds : list (Z * string)) : list (Z * string) :=
  match fds with
  | [] => []
  | (fd', object) :: fds' =>
      if fd =? fd' then fds' else (fd', object) :: closed fd fds'
  end.

Definition same_attribute (a b : string * string) : bool :=
  String.eqb (fst a) (fst b) && String.eqb (snd a) (snd b).

(** What the file system does with a property attribute, as far as a
    trace shows it: once the empty value was written to an attribute of
    an object, the attribute is deleted, and until it is written again a
    read of it fails, with errno ENOATTR.  [fds] lists the descriptors
    that are open, each with the object it was opened on; [cleared]
    lists the attributes that are deleted, each with its object.  Only
    the answers of the file system are constrained, not the calls. *)
Fixpoint cleared_reads_absent (fds : list (Z * string))
    (cleared : list (string * string)) (t : trace) : Prop :=
  match t with
  | [] => True
  | Ev c x :: t' =>
      match c return resp c -> Prop with
      | Open_file_or_dir3 object _ => fun fd =>
          cleared_reads_absent (if 0 <=? fd then (fd, object) :: fds else fds)
                               cleared t'
      | Close_file_or_dir fd => fun _ =>
          cleared_reads_absent (closed fd fds) cleared t'
      | Fsetxattr fd n v _ _ => fun sret =>
          match object_of fd fds with
          | Some object =>
              if sret <? 0 then cleared_reads_absent fds cleared t'
              else if String.eqb v EmptyString
                   then cleared_reads_absent fds ((object, n) :: cleared) t'
                   else cleared_reads_absent
                          fds
                          (filter (fun a => negb (same_attribute a (object, n)))
                                  cleared)
                          t'
          | None => cleared_reads_absent fds cleared t'
          end
      | Fgetxattr fd n _ _ => fun r =>
          (forall object,
             object_of fd fds = Some object -> In (object, n) cleared ->
             fst r < 0 /\ forall e, next_errno t' = Some e -> e = ENOATTR) /\
          cleared_reads_absent fds cleared t'
      | _ => fun _ => cleared_reads_absent fds cleared t'
      end x
  end.

(** ** Scenarios

    Environments that answer every call, to run the programs on. *)

(** Values of the constants, for the scenarios: three allocation bits. *)
Definition K0 : headers :=
  {| BTRFS_DEV_ALLOCATION_MASK := 7;
     BTRFS_DEV_ALLOCATION_PREFERRED_METADATA := 1;
     BTRFS_DEV_ALLOCATION_METADATA_ONLY := 2;
     BTRFS_DEV_ALLOCATION_PREFERRED_DATA := 0;
     BTRFS_DEV_ALLOCATION_DATA_ONLY := 3;
     BTRFS_DEV_PROPERTY_TYPE := 1;
     BTRFS_DEV_PROPERTY_READ := 2 ^ 60;
     prop_object_dev := 1;
     prop_object_root := 2;
     prop_object_subvol := 4;
     prop_object_inode := 8 |}.

(** All goes well: one device, of id 1, that is the one asked for. *)
Definition fine : oracle :=
  fun c =>
    match c with
    | Errno => 0
    | Error _ => tt
    | Printf _ => tt
    | Btrfs_util_set_subvolume_read_only _ _ => 0
    | Btrfs_util_get_subvolume_read_only _ => (0, false)
    | Error_btrfs_util _ => tt
    | Set_label _ _ => 0
    | Get_label _ => (0, "data")
    | Open_file_or_dir3 _ _ => 3
    | Close_file_or_dir _ => tt
    | Malloc _ => 4096
    | Free _ => tt
    | Fsetxattr _ _ _ _ _ => 0
    | Fgetxattr _ _ _ _ => (4, "zstd")
    | Get_btrfs_mount _ _ => (0, "/mnt")
    | Btrfs_open_dir _ _ => 3
    | Stat _ => (0, 2064)
    | Ioctl_fs_info _ => (0, 1)
    | Get_device_info _ i =>
        if i =? 1 then (0, {| di_devid := 1; di_path := Some "/dev/sdb" |})
        else (- ENODEV, {| di_devid := 0; di_path := None |})
    | Ioctl_dev_properties _ props => (0, props)
    end.

(** The attribute is not there. *)
Definition no_attribute : oracle :=
  fun c =>
    match c with
    | Errno => ENOATTR
    | Fgetxattr _ _ _ _ => (-1, EmptyString)
    | c => fine c
    end.

Definition get_absent : Z * trace :=
  run no_attribute (prop_compression 8 "/mnt/file" "compression" None).

Definition set_none_get : (Z * Z) * trace :=
  run no_attribute (set_then_get 8 "/mnt/file" "compression" "none").

Definition resolve_sdb : (Z * option Z * string) * trace :=
  run fine (btrfs_find_devid_and_mnt "/dev/sdb" PATH_MAX).

(** The device has the type bits 13: 5 in the allocation mask, that no
    class has, and one bit outside of it. *)
Definition odd_type : oracle :=
  fun c =>
    match c with
    | Ioctl_dev_properties _ props =>
        (0, {| dp_devid := dp_devid props;
               dp_properties := dp_properties props;
               dp_type := 13 |})
    | c => fine c
    end.

Definition get_odd_hint : Z * trace :=
  run odd_type (prop_allocation_hint K0 1 "/dev/sdb" "allocation_hint" None).

Definition set_metadata_only : Z * trace :=
  run odd_type
      (prop_allocation_hint K0 1 "/dev/sdb" "allocation_hint" (Some "METADATA_ONLY")).

Definition set_9 : Z * trace :=
  run odd_type (prop_allocation_hint K0 1 "/dev/sdb" "allocation_hint" (Some "9")).


(** The file system information is refused. *)
Definition fs_info_denied : oracle :=
  fun c =>
    match c with
    | Errno => EPERM
    | Ioctl_fs_info _ => (-1, 0)
    | c => fine c
    end.

Definition resolve_denied : (Z * option Z * string) * trace :=
  run fs_info_denied (btrfs_find_devid_and_mnt "/dev/sdb" PATH_MAX).

Definition get_hint_denied : Z * trace :=
  run fs_info_denied (prop_allocation_hint K0 1 "/dev/sdb" "allocation_hint" None).

Definition set_ro_maybe : Z * trace :=
  run fine (prop_read_only 4 "/mnt/subvol" "ro" (Some "maybe")).

(** ** ci/should-run-test

    The script reads the environment variable TRAVIS_BRANCH, [None] when
    it is not set, and leaves with the status 0 when the tests are to be
    run. *)

Definition expand (v : option string) : string :=
  match v with Some s => s | None => EmptyString end.

Definition should_run_test (TRAVIS_BRANCH : option string) : Z :=
  let b := expand TRAVIS_BRANCH in
  if String.eqb b EmptyString then 0          (* no branch? run anyway *)
  else if String.eqb b "coverity_scan" then 1 (* no tests *)
  else if String.eqb b "devel" || String.eqb b "master" then 0 (* quick tests *)
  else if String.eqb b "release-test" then 0  (* all tests *)
  else 1.                                     (* branch not recognized *)

(** ** More of what a trace shows *)

(** The answers to the query of the file system information. *)
Definition fs_infos (t : trace) : list (Z * Z) :=
  flat_map
    (fun e =>
       match e with
       | Ev c x =>
           match c return resp c -> list (Z * Z) with
           | Ioctl_fs_info _ => fun r => [r]
           | _ => fun _ => []
           end x
       end) t.

(** The calls of [btrfs_util_get_subvolume_read_only], with their answers. *)
Definition get_read_only_calls (t : trace) : list (string * (Z * bool)) :=
  flat_map
    (fun e =>
       match e with
       | Ev c x =>
           match c return resp c -> list (string * (Z * bool)) with
           | Btrfs_util_get_subvolume_read_only object => fun r => [(object, r)]
           | _ => fun _ => []
           end x
       end) t.

(** The sizes asked of [malloc], with the pointers given. *)
Definition mallocs (t : trace) : list (Z * Z) :=
  flat_map
    (fun e =>
       match e with
       | Ev c x =>
           match c return resp c -> list (Z * Z) with
           | Malloc size => fun p => [(size, p)]
           | _ => fun _ => []
           end x
       end) t.

(** The objects opened, with the flags and the descriptor given. *)
Definition opens (t : trace) : list (string * Z * Z) :=
  flat_map
    (fun e =>
       match e with
       | Ev c x =>
           match c return resp c -> list (string * Z * Z) with
           | Open_file_or_dir3 object flags => fun fd => [(object, flags, fd)]
           | _ => fun _ => []
           end x
       end) t.

(** The values of errno that were read. *)
Definition errnos (t : trace) : list Z :=
  flat_map
    (fun e =>
       match e with
       | Ev c x =>
           match c return resp c -> list Z with
           | Errno => fun e => [e]
           | _ => fun _ => []
           end x
       end) t.

(** The attribute reads in full: attribute name, buffer, size asked,
    result and data. *)
Definition xattr_gets (t : trace) : list (string * Z * Z * (Z * string)) :=
  flat_map
    (fun e =>
       match e with
       | Ev c x =>
           match c return resp c -> list (string * Z * Z * (Z * string)) with
           | Fgetxattr _ n buf size => fun r => [(n, buf, size, r)]
           | _ => fun _ => []
           end x
       end) t.

(** ** One call after another *)

Definition both (p q : prog Z) : prog (Z * Z) :=
  r1 <- p ;;
  r2 <- q ;;
  Ret (r1, r2).

(** The text of a flag, as [prop_read_only] reads and prints it. *)
Definition flag_text (b : bool) : string := if b then "true" else "false".

(** ** More scenarios *)

Definition get_ro : Z * trace :=
  run fine (prop_read_only 4 "/mnt/subvol" "ro" None).

Definition set_get_ro : (Z * Z) * trace :=
  run fine (both (prop_read_only 4 "/mnt/subvol" "ro" (Some "false"))
                 (prop_read_only 4 "/mnt/subvol" "ro" None)).

Definition get_label_run : Z * trace :=
  run fine (prop_label 1 "/dev/sdb" "label" None).

(** The flags with which [prop_compression] opens the object. *)
Definition open_mode (value : option string) : Z :=
  match value with Some _ => O_RDWR | None => O_RDONLY end.

(** What a set of the compression property stores for [value]. *)
Definition stored_value (value : string) : string :=
  if String.eqb value "no" || String.eqb value "none" then EmptyString else value.

Definition set_zstd : Z * trace :=
  run fine (prop_compression 8 "/mnt/file" "compression" (Some "zstd")).

Definition get_zstd : Z * trace :=
  run fine (prop_compression 8 "/mnt/file" "compression" None).

Definition set_get_zstd : (Z * Z) * trace :=
  run fine (set_then_get 8 "/mnt/file" "compression" "zstd").

(** The object cannot be opened. *)
Definition no_object : oracle :=
  fun c =>
    match c with
    | Errno => 2
    | Open_file_or_dir3 _ _ => -1
    | c => fine c
    end.

Definition get_no_object : Z * trace :=
  run no_object (prop_compression 8 "/mnt/file" "compression" None).

(** The write of the attribute fails, and errno is ENOATTR. *)
Definition write_enoattr : oracle :=
  fun c =>
    match c with
    | Errno => ENOATTR
    | Fsetxattr _ _ _ _ _ => -1
    | c => fine c
    end.

Definition set_enoattr : Z * trace :=
  run write_enoattr (prop_compression 8 "/mnt/file" "compression" (Some "zstd")).

(** No memory. *)
Definition no_memory : oracle :=
  fun c =>
    match c with
    | Malloc _ => 0
    | c => fine c
    end.

Definition get_no_memory : Z * trace :=
  run no_memory (prop_compression 8 "/mnt/file" "compression" None).

(** A C string holds no NUL before its end. *)
Fixpoint no_nul (s : string) : Prop :=
  match s with
  | EmptyString => True
  | String c s' => c <> zero /\ no_nul s'
  end.

(** The file system gives back what was written: a read of an attribute
    that was written gives the size written, and its data when there is
    a buffer. *)
Definition reads_what_was_written (t : trace) : Prop :=
  forall n v size sret n' buf size' r data,
    In (n, v, size, sret) (xattr_writes t) ->
    In (n', buf, size', (r, data)) (xattr_gets t) ->
    n' = n ->
    r = size /\ (buf <> 0 -> data = v).

(** The range of an [int]. *)
Definition int_range (z : Z) : Prop := - 2 ^ 31 <= z < 2 ^ 31.

(** What the loop of the resolver, run for the ids [i], [i + 1], ...
    ([n] of them), leaves in a trace and returns. *)
Definition scan_facts (i : Z) (n : nat) (t1 : trace) (res : Z * option Z) : Prop :=
  (exists k, (k <= n)%nat /\ queried t1 = ids i k) /\
  fs_infos t1 = [] /\
  (fst res = 0 <-> snd res <> None) /\
  (forall d, snd res = Some d -> int_range d) /\
  (List.length (errors t1) <= 1)%nat /\
  (fst res = 0 -> errors t1 = []).


(** What the resolver leaves in a trace and returns. *)
Definition asked_in_order (t : trace) : Prop :=
  (List.length (fs_infos t) <= 1)%nat /\
  exists k,
    queried t = ids 0 k /\
    (k = 0%nat \/
     exists r max_id,
       fs_infos t = [(r, max_id)] /\ 0 <= r /\ (k <= Z.to_nat (max_id + 1))%nat).

Definition result_facts (t : trace) (ret : Z) (devid : option Z) : Prop :=
  (ret = 0 <-> devid <> None) /\
  (forall d, devid = Some d -> int_range d) /\
  (List.length (errors t) <= 1)%nat /\
  (ret = 0 -> errors t = []).

(** The ways in which the resolver leaves before its loop, and the
    entry into the loop. *)
Definition before_the_loop (devpath : string) (maxpath : Z)
    (t : trace) (res : Z * option Z * string) : Prop :=
  (exists r path,
     r <> 0 /\ res = (r, None, path) /\
     t = [Ev (Get_btrfs_mount devpath maxpath) (r, path)]) \/
  (exists path fd,
     fd < 0 /\ res = (fd, None, path) /\
     t = [Ev (Get_btrfs_mount devpath maxpath) (0, path);
          Ev (Btrfs_open_dir path 1) fd]) \/
  (exists path fd r st,
     0 <= fd /\ r <> 0 /\ res = (r, None, path) /\
     t = [Ev (Get_btrfs_mount devpath maxpath) (0, path);
          Ev (Btrfs_open_dir path 1) fd;
          Ev (Stat devpath) (r, st);
          Ev (Error ("cannot stat '" +++ devpath +++ "'")) tt;
          Ev (Close_file_or_dir fd) tt]) \/
  (exists path fd st r m,
     0 <= fd /\ r < 0 /\ res = (- EPERM, None, path) /\
     t = [Ev (Get_btrfs_mount devpath maxpath) (0, path);
          Ev (Btrfs_open_dir path 1) fd;
          Ev (Stat devpath) (0, st);
          Ev (Ioctl_fs_info fd) (r, m);
          Ev Errno EPERM]) \/
  (exists path fd st r m e,
     0 <= fd /\ r < 0 /\ e <> EPERM /\ res = (-10, None, path) /\
     t = [Ev (Get_btrfs_mount devpath maxpath) (0, path);
          Ev (Btrfs_open_dir path 1) fd;
          Ev (Stat devpath) (0, st);
          Ev (Ioctl_fs_info fd) (r, m);
          Ev Errno e;
          Ev (Error "cannot get filesystem info: %m") tt;
          Ev (Close_file_or_dir fd) tt]) \/
  (exists r m, 0 <= r /\ fs_infos t = [(r, m)]).

(** The mount point is not found. *)
Definition no_mount : oracle :=
  fun c =>
    match c with
    | Get_btrfs_mount _ _ => (-2, EmptyString)
    | c => fine c
    end.

Definition resolve_no_mount : (Z * option Z * string) * trace :=
  run no_mount (btrfs_find_devid_and_mnt "/dev/sdb" PATH_MAX).

(** No device of the file system is the one asked for: the only device
    has another device number. *)
Definition stranger : oracle :=
  fun c =>
    match c with
    | Stat path => if String.eqb path "/dev/sdc" then (0, 2080) else (0, 2064)
    | c => fine c
    end.

Definition get_hint_stranger : Z * trace :=
  run stranger (prop_allocation_hint K0 1 "/dev/sdc" "allocation_hint" None).

Definition get_hint_sdb : Z * trace :=
  run fine (prop_allocation_hint K0 1 "/dev/sdb" "allocation_hint" None).

(** How the result of [prop_allocation_hint] stands to what it did. *)
Definition hint_status (value : option string) (t : trace) (ret : Z) : Prop :=
  ret <= 0 /\
  (ret = 0 ->
   exists fd rq r cur more,
     exchanges t = (fd, rq, (r, cur)) :: more /\ 0 <= r /\
     match value with
     | None => more = []
     | Some _ => exists wq wr, more = [(fd, wq, wr)] /\ 0 <= fst wr
     end) /\
  (value <> None -> printed t = []) /\
  (exchanges t = [] -> printed t = []).





(** ** The executions of a get of the compression property *)

(** The calls at the label [out:] of [prop_compression], for the name
    buffer, the value buffer and the descriptor that it has there. *)
Definition out_calls (xattr_name buf fd : Z) : trace :=
  (if xattr_name =? 0 then [] else [Ev (Free xattr_name) tt]) ++
  (if buf =? 0 then [] else [Ev (Free buf) tt]) ++
  (if 0 <=? fd then [Ev (Close_file_or_dir fd) tt] else []).

(** The seven ways a get can go, each with all of its calls and its
    result: the open fails; the name buffer is refused; the read of the
    length fails, with ENOATTR or with another errno; the value buffer is
    refused; the read of the value fails; the value is printed. *)
Definition get_compression_outcome (object name : string) (t : trace) (ret : Z)
  : Prop :=
  let xattr := XATTR_BTRFS_PREFIX +++ name in
  let opened (fd : Z) := Ev (Open_file_or_dir3 object O_RDONLY) fd in
  let named (p : Z) := Ev (Malloc (XATTR_BTRFS_PREFIX_LEN + strlen name + 1)) p in
  let asked (fd : Z) (r : Z * string) := Ev (Fgetxattr fd xattr 0 0) r in
  let reported :=
    Ev (Error ("failed to get compression for " +++ object +++ ": %m")) tt in
  (exists e : Z,
     t = [opened (-1); Ev Errno e;
          Ev (Error ("failed to open " +++ object +++ ": %m")) tt] /\
     ret = - e) \/
  (exists fd : Z,
     t = [opened fd; named 0] ++ out_calls 0 0 fd /\
     ret = - ENOMEM /\ fd <> -1) \/
  (exists (fd p sret : Z) (data : string),
     t = [opened fd; named p; asked fd (sret, data); Ev Errno ENOATTR]
         ++ out_calls p 0 fd /\
     ret = 0 /\ fd <> -1 /\ p <> 0 /\ sret < 0) \/
  (exists (fd p sret : Z) (data : string) (e : Z),
     t = [opened fd; named p; asked fd (sret, data); Ev Errno e; reported]
         ++ out_calls p 0 fd /\
     ret = - e /\ fd <> -1 /\ p <> 0 /\ sret < 0 /\ e <> ENOATTR) \/
  (exists (fd p len : Z) (data : string),
     t = [opened fd; named p; asked fd (len, data); Ev (Malloc len) 0]
         ++ out_calls p 0 fd /\
     ret = - ENOMEM /\ fd <> -1 /\ p <> 0 /\ 0 <= len) \/
  (exists (fd p len : Z) (data : string) (buf sret : Z) (data' : string) (e : Z),
     t = [opened fd; named p; asked fd (len, data); Ev (Malloc len) buf;
          Ev (Fgetxattr fd xattr buf len) (sret, data'); Ev Errno e; reported]
         ++ out_calls p buf fd /\
     ret = - e /\ fd <> -1 /\ p <> 0 /\ 0 <= len /\ buf <> 0 /\ sret < 0) \/
  (exists (fd p len : Z) (data : string) (buf sret : Z) (data' : string),
     t = [opened fd; named p; asked fd (len, data); Ev (Malloc len) buf;
          Ev (Fgetxattr fd xattr buf len) (sret, data');
          Ev (Printf ("compression=" +++ prec_s (cast_int len) data' +++ newline)) tt]
         ++ out_calls p buf fd /\
     ret = 0 /\ fd <> -1 /\ p <> 0 /\ 0 <= len /\ buf <> 0 /\ 0 <= sret).

(** ** The refusal that keeps the handle *)

(** The trace shows the file system information refused, and EPERM as
    the errno read. *)
Definition eperm_refusal (t : trace) : Prop :=
  exists r max_id, fs_infos t = [(r, max_id)] /\ r < 0 /\ errnos t = [EPERM].

(** ** A second device *)

(** Two devices: /dev/sda, of id 1, and /dev/sdb, the one asked for, of
    id 2, whose type bits are 13. *)
Definition two_devices : oracle :=
  fun c =>
    match c with
    | Stat path => if String.eqb path "/dev/sda" then (0, 2048) else (0, 2064)
    | Ioctl_fs_info _ => (0, 2)
    | Get_device_info _ i =>
        if i =? 1 then (0, {| di_devid := 1; di_path := Some "/dev/sda" |})
        else if i =? 2 then (0, {| di_devid := 2; di_path := Some "/dev/sdb" |})
        else (- ENODEV, {| di_devid := 0; di_path := None |})
    | c => odd_type c
    end.

Definition set_3_second : Z * trace :=
  run two_devices (prop_allocation_hint K0 1 "/dev/sdb" "allocation_hint" (Some "3")).

(** The read of the length succeeds, the read of the value fails. *)
Definition read_refused : oracle :=
  fun c =>
    match c with
    | Errno => EPERM
    | Fgetxattr _ _ buf _ => if buf =? 0 then (4, EmptyString) else (-1, EmptyString)
    | c => fine c
    end.

Definition get_refused : Z * trace :=
  run read_refused (prop_compression 8 "/mnt/file" "compression" None).
(** ** Reasoning on programs *)

Lemma wp_sound {A : Type} (p : prog A) (t : trace) (a : A) :
  exec p t a ->
  forall (pre : trace) (Q : trace -> A -> Prop), wp p pre Q -> Q (pre ++ t) a.
Proof.
  induction 1 as [a | c k x t a _ IH]; intros pre Q H; simpl in H.
  - now rewrite app_nil_r.
  - specialize (IH _ _ (H x)). now rewrite <- app_assoc in IH.
Qed.

Lemma wp_mono {A : Type} (p : prog A) :
  forall (pre : trace) (Q Q' : trace -> A -> Prop),
    (forall t a, Q t a -> Q' t a) -> wp p pre Q -> wp p pre Q'.
Proof.
  induction p as [a | c k IH]; intros pre Q Q' HQ H; simpl in *.
  - auto.
  - intro x. eapply IH; eauto.
Qed.

Lemma wp_bind {A B : Type} (p : prog A) (f : A -> prog B) :
  forall (pre : trace) (Q : trace -> B -> Prop),
    wp p pre (fun t a => wp (f a) t Q) -> wp (bind p f) pre Q.
Proof.
  induction p as [a | c k IH]; intros pre Q H; simpl in *.
  - exact H.
  - intro x. apply IH, H.
Qed.

Lemma exec_run {A : Type} (o : oracle) (p : prog A) :
  exec p (snd (run o p)) (fst (run o p)).
Proof.
  induction p as [a | c k IH]; simpl.
  - constructor.
  - specialize (IH (o c)). destruct (run o (k (o c))) as [a t]. simpl in *.
    now constructor.
Qed.

(** A property of all executions, from the weakest precondition. *)
Lemma exec_wp {A : Type} (p : prog A) (Q : trace -> A -> Prop) :
  wp p [] Q -> forall t a, exec p t a -> Q t a.
Proof.
  intros H t a He. exact (wp_sound p t a He [] Q H).
Qed.

#[local] Arguments cast_int : simpl never.
#[local] Arguments cast_u64 : simpl never.
#[local] Arguments not_u64 : simpl never.
#[local] Arguments major : simpl never.
#[local] Arguments minor : simpl never.
#[local] Arguments dec : simpl never.
#[local] Arguments prec_s : simpl never.

(** One step of a program: answers are introduced, tests are decided. *)
Ltac decide_test :=
  match goal with
  | H : ?a <> ?b |- context [Z.eqb ?a ?b] => rewrite (proj2 (Z.eqb_neq a b) H)
  | H : ?a = ?b |- context [Z.eqb ?a ?b] => rewrite (proj2 (Z.eqb_eq a b) H)
  | |- context [Z.eqb ?a ?a] => rewrite (Z.eqb_refl a)
  | |- context [Z.eqb ?a ?b] => destruct (Z.eqb_spec a b)
  | |- context [Z.ltb ?a ?b] => destruct (Z.ltb_spec a b); try (exfalso; lia)
  | |- context [Z.leb ?a ?b] => destruct (Z.leb_spec a b); try (exfalso; lia)
  | |- context [String.eqb ?a ?b] => destruct (String.eqb_spec a b)
  end.

Ltac answer :=
  match goal with
  | |- forall x : resp _, _ =>
      let x := fresh "x" in
      intro x; cbn in x;
      let T := type of x in
      lazymatch T with
      | unit => destruct x
      | prod _ _ => destruct x as [? ?]
      | _ => idtac
      end
  end.

Ltac exec_step := first [ answer | decide_test ]; cbn [wp bind do negb andb orb app].

(** C7.  A set of the read-only flag with a value other than "true" and
    "false" returns -EINVAL and does not call
    [btrfs_util_set_subvolume_read_only]; with "true" or "false" it calls
    it once, with that flag, returns 0 when it succeeds and, when it
    fails, reports the error and returns the negated errno. *)
Theorem read_only_set_validates (type : Z) (object name value : string)
    (t : trace) (ret : Z) :
  exec (prop_read_only type object name (Some value)) t ret ->
  (value <> "true" -> value <> "false" ->
     ret = - EINVAL /\ set_read_only_calls t = [] /\
     t = [Ev (Error ("invalid value for property: " +++ value)) tt]) /\
  (forall b : bool, value = (if b then "true" else "false") ->
     exists err : Z,
       set_read_only_calls t = [(object, b, err)] /\
       (err = 0 -> ret = 0) /\
       (err <> 0 ->
          exists e : Z,
            t = [Ev (Btrfs_util_set_subvolume_read_only object b) err;
                 Ev (Error_btrfs_util err) tt; Ev Errno e] /\
            ret = - e /\ (0 < e -> ret < 0))).
Proof.
  revert t ret; refine (exec_wp _ _ _).
  unfold prop_read_only.
  repeat exec_step.
  all: split;
    [ intros; try congruence; auto
    | intros [|] Hb; subst; try discriminate; try congruence ].
  all: try (eexists; cbn; split; [reflexivity |]; split; intros;
            try congruence; try lia; eauto).
  all: eexists; repeat split; lia.
Qed.

Lemma read_only_set_validates_witness :
  fst set_ro_maybe = - EINVAL /\ set_read_only_calls (snd set_ro_maybe) = [].
Proof.
  destruct (read_only_set_validates 4 "/mnt/subvol" "ro" "maybe"
              (snd set_ro_maybe) (fst set_ro_maybe) (exec_run _ _)) as [H _].
  destruct H as [H1 [H2 _]]; [discriminate | discriminate |].
  split; assumption.
Defined.

(** ** The device resolver *)

Lemma run_bind {A B : Type} (o : oracle) (p : prog A) (f : A -> prog B) :
  run o (bind p f) =
  (fst (run o (f (fst (run o p)))), snd (run o p) ++ snd (run o (f (fst (run o p))))).
Proof.
  induction p as [a | c k IH]; simpl.
  - now destruct (run o (f a)).
  - rewrite IH. now destruct (run o (k (o c))).
Qed.

Lemma queried_app (t1 t2 : trace) : queried (t1 ++ t2) = queried t1 ++ queried t2.
Proof. apply flat_map_app. Qed.

Lemma ids_app (k n : nat) : forall i, ids i (k + n) = ids i k ++ ids (i + Z.of_nat k) n.
Proof.
  induction k as [| k IH]; intro i.
  - simpl. now rewrite Z.add_0_r.
  - cbn [ids Nat.add app]. rewrite IH. do 3 f_equal. lia.
Qed.

Lemma run_vis {A : Type} (o : oracle) (c : call) (k : resp c -> prog A) :
  run o (Vis c k) = (fst (run o (k (o c))), Ev c (o c) :: snd (run o (k (o c)))).
Proof. simpl. now destruct (run o (k (o c))). Qed.

Section Scan.

Variables (o : oracle) (devpath : string) (fd rdev : Z).

Local Abbreviation scan n i := (run o (scan_devices devpath fd rdev n i)).

Ltac scan_step :=
  cbn [scan_devices bind do]; rewrite run_vis;
  cbn [fst snd queried flat_map app].

Lemma scan_passed (n : nat) (i : Z) :
  candidate_passed o fd rdev i ->
  fst (scan (S n) i) = fst (scan n (i + 1)) /\
  queried (snd (scan (S n) i)) = i :: queried (snd (scan n (i + 1))).
Proof.
  unfold candidate_passed. scan_step.
  destruct (o (Get_device_info fd i)) as [ret info]. cbn [fst snd].
  intros [-> | [-> H]].
  - rewrite Z.eqb_refl. split; reflexivity.
  - cbn [Z.eqb negb Z.opp ENODEV]. destruct (di_path info) as [p |].
    + cbn [bind do]. rewrite run_vis. cbn [fst snd queried flat_map app].
      destruct (o (Stat p)) as [r st]. cbn [fst snd] in H.
      destruct H as [-> Hd]. cbn [Z.eqb negb].
      destruct ((major st =? major rdev) && (minor st =? minor rdev)) eqn:E.
      * exfalso. apply Hd. apply andb_true_iff in E. split; apply Z.eqb_eq, E.
      * split; reflexivity.
    + split; reflexivity.
Qed.

Lemma scan_matches (n : nat) (i d : Z) :
  candidate_matches o fd rdev i d ->
  fst (scan (S n) i) = (0, Some (cast_int d)) /\ queried (snd (scan (S n) i)) = [i].
Proof.
  unfold candidate_matches. scan_step.
  destruct (o (Get_device_info fd i)) as [ret info]. cbn [fst snd].
  intros [-> [-> [p [-> [Hs [Hma Hmi]]]]]].
  cbn [Z.eqb negb Z.opp ENODEV bind do]. rewrite run_vis.
  cbn [fst snd queried flat_map app].
  destruct (o (Stat p)) as [r st]. cbn [fst snd] in *. subst r.
  cbn [Z.eqb negb]. rewrite Hma, Hmi, !Z.eqb_refl.
  cbn [andb run fst snd queried flat_map]. split; reflexivity.
Qed.

Lemma scan_fails (n : nat) (i e : Z) :
  candidate_fails o fd i e ->
  fst (scan (S n) i) = (e, None) /\ queried (snd (scan (S n) i)) = [i].
Proof.
  unfold candidate_fails. scan_step.
  destruct (o (Get_device_info fd i)) as [ret info]. cbn [fst snd].
  intros [[-> [H1 H2]] | [-> [p [-> [Hs Hn]]]]].
  - apply Z.eqb_neq in H1, H2. rewrite H1, H2.
    cbn [negb bind do]. rewrite run_vis.
    cbn [run fst snd queried flat_map app]. split; reflexivity.
  - cbn [Z.eqb negb Z.opp ENODEV bind do]. rewrite run_vis.
    cbn [fst snd queried flat_map app].
    destruct (o (Stat p)) as [r st]. cbn [fst snd] in *. subst r.
    apply Z.eqb_neq in Hn. rewrite Hn.
    cbn [negb bind do]. rewrite run_vis.
    cbn [run fst snd queried flat_map app]. split; reflexivity.
Qed.

Lemma scan_prefix (k n : nat) :
  forall i,
    (forall j, i <= j < i + Z.of_nat k -> candidate_passed o fd rdev j) ->
    fst (scan (k + n) i) = fst (scan n (i + Z.of_nat k)) /\
    queried (snd (scan (k + n) i)) =
    ids i k ++ queried (snd (scan n (i + Z.of_nat k))).
Proof.
  induction k as [| k IH]; intros i H.
  - cbn [Nat.add ids app Z.of_nat]. now rewrite Z.add_0_r.
  - destruct (scan_passed (k + n) i) as [H1 H2]; [apply H; lia |].
    destruct (IH (i + 1)) as [H3 H4]; [intros j Hj; apply H; lia |].
    replace (i + Z.of_nat (S k)) with (i + 1 + Z.of_nat k) by lia.
    cbn [Nat.add ids app]. rewrite H1, H2, H3, H4. now split.
Qed.

Lemma scan_exhausted (n : nat) (i : Z) :
  (forall j, i <= j < i + Z.of_nat n -> candidate_passed o fd rdev j) ->
  fst (scan n i) = (-12, None) /\ queried (snd (scan n i)) = ids i n.
Proof.
  intro H. destruct (scan_prefix n 0 i H) as [H1 H2].
  rewrite Nat.add_0_r in H1, H2. rewrite H1, H2. cbn [scan_devices run fst snd queried flat_map]. now rewrite app_nil_r.
Qed.

Lemma scan_first (m : nat) (i : Z) (a : Z * option Z) :
  0 <= i ->
  (forall j, 0 <= j < i -> candidate_passed o fd rdev j) ->
  (forall n, fst (scan (S n) i) = a /\ queried (snd (scan (S n) i)) = [i]) ->
  fst (scan (Z.to_nat i + S m) 0) = a /\
  queried (snd (scan (Z.to_nat i + S m) 0)) = ids 0 (S (Z.to_nat i)).
Proof.
  intros Hi Hp Ha.
  destruct (scan_prefix (Z.to_nat i) (S m) 0) as [H1 H2];
    [intros j Hj; apply Hp; lia |].
  replace (0 + Z.of_nat (Z.to_nat i)) with i in H1, H2 by lia.
  destruct (Ha m) as [H3 H4]. rewrite H1, H2, H3, H4. split; [reflexivity |].
  replace (S (Z.to_nat i)) with (Z.to_nat i + 1)%nat by lia.
  rewrite ids_app. cbn [ids]. do 2 f_equal. lia.
Qed.

End Scan.

(** C1.  The resolver, in an environment that answers a call the same way
    each time, once the mount point is found and opened and the input
    path is examined.  If the file system information is refused with
    EPERM, the result is -EPERM and no device is asked about.  If it is
    given, the ids are asked about in the order 0, 1, 2, ...: the first
    id that is not passed over decides, with its device id when it is the
    input device, with its failure when the query or the stat fails; and
    when every id up to the largest is passed over the result is -12. *)
Theorem find_devid_scan (o : oracle) (devpath mnt : string)
    (maxpath rdev r max_id : Z) :
  o (Get_btrfs_mount devpath maxpath) = (0, mnt) ->
  0 <= o (Btrfs_open_dir mnt 1) ->
  o (Stat devpath) = (0, rdev) ->
  o (Ioctl_fs_info (o (Btrfs_open_dir mnt 1))) = (r, max_id) ->
  let fd := o (Btrfs_open_dir mnt 1) in
  let res := fst (run o (btrfs_find_devid_and_mnt devpath maxpath)) in
  let t := snd (run o (btrfs_find_devid_and_mnt devpath maxpath)) in
  (r < 0 -> o Errno = EPERM -> res = (- EPERM, None, mnt) /\ queried t = []) /\
  (0 <= r -> 0 <= max_id <= INT_MAX ->
   (forall i d,
      0 <= i <= max_id ->
      (forall j, 0 <= j < i -> candidate_passed o fd rdev j) ->
      candidate_matches o fd rdev i d ->
      res = (0, Some (cast_int d), mnt) /\ queried t = ids 0 (S (Z.to_nat i))) /\
   (forall i e,
      0 <= i <= max_id ->
      (forall j, 0 <= j < i -> candidate_passed o fd rdev j) ->
      candidate_fails o fd i e ->
      res = (e, None, mnt) /\ queried t = ids 0 (S (Z.to_nat i))) /\
   ((forall j, 0 <= j <= max_id -> candidate_passed o fd rdev j) ->
    res = (-12, None, mnt) /\ queried t = ids 0 (S (Z.to_nat max_id)))).
Proof.
  intros Hm Hfd Hst Hfs fd res t. subst res t.
  unfold btrfs_find_devid_and_mnt. cbn [bind do].
  rewrite run_vis, Hm. cbn [negb Z.eqb bind do].
  rewrite run_vis. fold fd. fold fd in Hfs.
  destruct (Z.ltb_spec fd 0) as [? | _]; [lia |].
  cbn [bind do]. rewrite run_vis, Hst. cbn [negb Z.eqb bind do].
  rewrite run_vis, Hfs. cbn [fst snd queried flat_map app].
  split.
  - intros Hr He. destruct (Z.ltb_spec r 0) as [_ | ?]; [| lia].
    rewrite run_vis, He. cbn [EPERM Z.eqb Pos.eqb run fst snd queried flat_map app].
    split; reflexivity.
  - intros Hr Hmax. destruct (Z.ltb_spec r 0) as [? | _]; [lia |].
    rewrite run_bind. cbn [fst snd]. rewrite queried_app.
    split; [| split].
    + intros i d Hi Hp Hc.
      replace (Z.to_nat (max_id + 1))
        with (Z.to_nat i + S (Z.to_nat (max_id - i)))%nat by lia.
      destruct (scan_first o devpath fd rdev (Z.to_nat (max_id - i)) i
                  (0, Some (cast_int d))) as [H1 H2];
        [lia | exact Hp | intro n; now apply scan_matches |].
      rewrite H1, H2. cbn [bind do]. rewrite run_vis.
      cbn [run fst snd queried flat_map app]. rewrite app_nil_r. split; reflexivity.
    + intros i e Hi Hp Hc.
      replace (Z.to_nat (max_id + 1))
        with (Z.to_nat i + S (Z.to_nat (max_id - i)))%nat by lia.
      destruct (scan_first o devpath fd rdev (Z.to_nat (max_id - i)) i
                  (e, None)) as [H1 H2];
        [lia | exact Hp | intro n; now apply scan_fails |].
      rewrite H1, H2. cbn [bind do]. rewrite run_vis.
      cbn [run fst snd queried flat_map app]. rewrite app_nil_r. split; reflexivity.
    + intros Hp.
      replace (Z.to_nat (max_id + 1)) with (S (Z.to_nat max_id)) by lia.
      destruct (scan_exhausted o devpath fd rdev (S (Z.to_nat max_id)) 0)
        as [H1 H2]; [intros j Hj; apply Hp; lia |].
      rewrite H1, H2. cbn [bind do]. rewrite run_vis.
      cbn [run fst snd queried flat_map app]. rewrite app_nil_r. split; reflexivity.
Qed.

Lemma find_devid_scan_witness :
  fst resolve_sdb = (0, Some 1, "/mnt") /\ queried (snd resolve_sdb) = [0; 1].
Proof.
  destruct (find_devid_scan fine "/dev/sdb" "/mnt" PATH_MAX 2064 0 1)
    as [_ H]; try reflexivity.
  - cbn. lia.
  - destruct H as [H _]; [lia | unfold INT_MAX; lia |].
    apply (H 1 1).
    + lia.
    + intros j Hj. assert (j = 0) as -> by lia. left. reflexivity.
    + split; [reflexivity | split; [reflexivity |]].
      exists "/dev/sdb". split; [reflexivity | split; [reflexivity |]].
      split; reflexivity.
Defined.

Lemma exchanges_app (t1 t2 : trace) :
  exchanges (t1 ++ t2) = exchanges t1 ++ exchanges t2.
Proof. apply flat_map_app. Qed.

Lemma printed_app (t1 t2 : trace) : printed (t1 ++ t2) = printed t1 ++ printed t2.
Proof. apply flat_map_app. Qed.

Lemma errors_app (t1 t2 : trace) : errors (t1 ++ t2) = errors t1 ++ errors t2.
Proof. apply flat_map_app. Qed.

Lemma resolver_post_step (pre : trace) (e : event) (t : trace) (res : Z * option Z) :
  exchanges [e] = [] -> printed [e] = [] ->
  resolver_post (pre ++ [e]) t res -> resolver_post pre t res.
Proof.
  intros He Hp [t1 [-> [H1 [H2 H3]]]]. exists (e :: t1).
  rewrite <- app_assoc. split; [reflexivity |].
  change (e :: t1) with ([e] ++ t1).
  rewrite exchanges_app, printed_app, He, Hp, H1, H2. auto.
Qed.

Lemma resolver_post_here (pre : trace) (res : Z * option Z) :
  (fst res = 0 -> exists d, snd res = Some d) -> resolver_post pre pre res.
Proof. intro H. exists []. rewrite app_nil_r. auto. Qed.

Ltac resolver_steps :=
  first
    [ apply resolver_post_here; cbn [fst snd]; intro; first [ lia | eauto ]
    | eassumption
    | eapply resolver_post_step; [ | | resolver_steps ]; reflexivity ].

Lemma wp_scan_devices (devpath : string) (fd rdev : Z) (n : nat) :
  forall (i : Z) (pre : trace),
    wp (scan_devices devpath fd rdev n i) pre (resolver_post pre).
Proof.
  induction n as [| n IH]; intros i pre; cbn [scan_devices wp bind do].
  - resolver_steps.
  - intros [ret info].
    assert (Hnext : wp (scan_devices devpath fd rdev n (i + 1))
                       (pre ++ [Ev (Get_device_info fd i) (ret, info)])
                       (resolver_post pre)).
    { eapply wp_mono; [| apply IH]. intros t a H. cbv beta in H. resolver_steps. }
    destruct (Z.eqb_spec ret (- ENODEV)); [exact Hnext |].
    destruct (Z.eqb_spec ret 0); cbn [negb wp bind do].
    + destruct (di_path info) as [p |]; [| exact Hnext].
      cbn [wp bind do]. intros [r st].
      destruct (Z.eqb_spec r 0); cbn [negb wp bind do].
      * destruct ((major st =? major rdev) && (minor st =? minor rdev)).
        -- cbn [wp]. resolver_steps.
        -- eapply wp_mono; [| apply IH]. intros t a H. cbv beta in H.
           resolver_steps.
      * intros []. resolver_steps.
    + intros []. resolver_steps.
Qed.

Lemma resolver_post_after (pre : trace) (e : event) (t : trace) (res : Z * option Z) :
  exchanges [e] = [] -> printed [e] = [] ->
  resolver_post pre t res -> resolver_post pre (t ++ [e]) res.
Proof.
  intros He Hp [t1 [-> [H1 [H2 H3]]]]. exists (t1 ++ [e]).
  rewrite <- app_assoc, exchanges_app, printed_app, He, Hp, H1, H2. auto.
Qed.

Lemma wp_find_devid (devpath : string) (maxpath : Z) (pre : trace) :
  wp (btrfs_find_devid_and_mnt devpath maxpath) pre
     (fun t res => resolver_post pre t (fst res)).
Proof.
  unfold btrfs_find_devid_and_mnt. cbn [wp bind do].
  intros [ret path].
  destruct (Z.eqb_spec ret 0); cbn [negb wp bind do]; [| resolver_steps].
  intros fd. cbn in fd.
  destruct (Z.ltb_spec fd 0); cbn [wp bind do]; [resolver_steps |].
  intros [r rdev].
  destruct (Z.eqb_spec r 0); cbn [negb wp bind do];
    [| intros [] []; resolver_steps].
  intros [r1 max_id].
  destruct (Z.ltb_spec r1 0); cbn [wp bind do].
  - intros e1. cbn in e1. destruct (Z.eqb_spec e1 EPERM); cbn [wp bind do].
    + subst e1. unfold EPERM. resolver_steps.
    + intros [] []. resolver_steps.
  - apply wp_bind. eapply wp_mono; [| apply wp_scan_devices].
    intros t [ret' devid] Hs. cbv beta in Hs. cbn [wp bind do]. intros [].
    cbn [fst]. apply resolver_post_after; [reflexivity | reflexivity |].
    resolver_steps.
Qed.

(** The resolver returns 0 only after it stored a device id. *)
Lemma find_devid_zero_assigns (devpath : string) (maxpath : Z)
    (t : trace) (ret : Z) (devid : option Z) (path : string) :
  exec (btrfs_find_devid_and_mnt devpath maxpath) t (ret, devid, path) ->
  ret = 0 -> exists d, devid = Some d.
Proof.
  intros H Hr.
  destruct (wp_sound _ _ _ H [] _ (wp_find_devid devpath maxpath []))
    as [t1 [_ [_ [_ Hd]]]].
  exact (Hd Hr).
Qed.

(** ** The allocation hint *)

Ltac observe Hx :=
  rewrite ?exchanges_app, ?printed_app, ?Hx;
  cbn [exchanges printed flat_map app fst snd].

Lemma wp_allocation_hint_set (K : headers) (type : Z) (object name value : string) :
  wp (prop_allocation_hint K type object name (Some value)) []
     (set_outcome K object value).
Proof.
  unfold prop_allocation_hint. apply wp_bind.
  eapply wp_mono; [| apply wp_find_devid].
  intros t [[ret devid] path] [t1 [-> [Hx [Hp Hd]]]].
  cbn [app fst snd] in *. unfold set_outcome, validated.
  destruct (Z.eqb_spec ret 0); cbn [negb wp bind do];
    [| left; exact Hx].
  intros fd. cbn in fd.
  destruct (Z.ltb_spec fd 0); cbn [wp bind do]; [left; now observe Hx |].
  intros [r cur].
  destruct (Z.ltb_spec r 0); cbn [wp bind do].
  { intros [] []. right. exists fd, (cast_u64 (int_of_out devid)), r, cur.
    left. observe Hx. auto. }
  assert (Hw : forall v,
             wp (let type0 := Z.land (dp_type cur) (not_u64 (BTRFS_DEV_ALLOCATION_MASK K)) in
                 let type1 := Z.lor type0 (Z.land v (BTRFS_DEV_ALLOCATION_MASK K)) in
                 let props :=
                   {| dp_devid := cast_u64 (int_of_out devid);
                      dp_properties := BTRFS_DEV_PROPERTY_TYPE K;
                      dp_type := type1 |} in
                 ' (ret0, _) <- do (Ioctl_dev_properties fd props) ;;
                 if ret0 <? 0
                 then do (Error ("Cannot perform BTRFS_IOC_DEV_PROPERTIES ioctl on '"
                                 +++ path +++ "'")) ;;;
                      do (Close_file_or_dir fd) ;;; Ret (-4)
                 else do (Close_file_or_dir fd) ;;; Ret 0)
               ((t1 ++ [Ev (Btrfs_open_dir path 1) fd]) ++
                [Ev (Ioctl_dev_properties fd
                       {| dp_devid := cast_u64 (int_of_out devid);
                          dp_properties :=
                            Z.lor (BTRFS_DEV_PROPERTY_TYPE K) (BTRFS_DEV_PROPERTY_READ K);
                          dp_type := 0 |}) (r, cur)])
               (fun t ret =>
                  exists wr,
                    exchanges t =
                    [(fd, read_request K (cast_u64 (int_of_out devid)), (r, cur));
                     (fd, write_request K (cast_u64 (int_of_out devid))
                            (merged_type K (dp_type cur) v), wr)] /\
                    (fst wr < 0 -> ret = -4) /\ (0 <= fst wr -> ret = 0))).
  { intro v. cbn [wp bind do]. intros [r2 p2].
    destruct (Z.ltb_spec r2 0); cbn [wp bind do].
    - intros [] []. exists (r2, p2). observe Hx.
      split; [reflexivity | cbn [fst]; split; intro; [reflexivity | lia]].
    - intros []. exists (r2, p2). observe Hx.
      split; [reflexivity | cbn [fst]; split; intro; [lia | reflexivity]]. }
  destruct (value_of_descr value (allocation_hint_description K)) as [v |].
  { eapply wp_mono; [| apply Hw]. intros t a H1. right.
    exists fd, (cast_u64 (int_of_out devid)), r, cur. right. auto. }
  destruct (sscanf_llu value) as [v |].
  - destruct (Z.eqb_spec (Z.land v (not_u64 (BTRFS_DEV_ALLOCATION_MASK K))) 0);
      cbn [negb].
    + eapply wp_mono; [| apply Hw]. intros t a H1. right.
      exists fd, (cast_u64 (int_of_out devid)), r, cur. right. auto.
    + cbn [wp bind do]. intros [] []. right.
      exists fd, (cast_u64 (int_of_out devid)), r, cur. right.
      observe Hx. auto.
  - cbn [wp bind do]. intros [] []. right.
    exists fd, (cast_u64 (int_of_out devid)), r, cur. right.
    observe Hx. auto.
Qed.

Lemma not_class_name (K : headers) (value : string) :
  ~ is_class_name value ->
  value_of_descr value (allocation_hint_description K) = None.
Proof.
  unfold is_class_name. intro H. cbn [value_of_descr allocation_hint_description].
  repeat match goal with
         | |- context [String.eqb ?a ?b] =>
             destruct (String.eqb_spec a b); [exfalso; apply H; auto |]
         end.
  reflexivity.
Qed.

Lemma validated_accepted (K : headers) (value : string) (v : Z) :
  accepted_value K value v -> validated K value = Some v.
Proof.
  unfold validated.
  intros [[[-> ->] | [[-> ->] | [[-> ->] | [-> ->]]]] | [Hn [Hs Hm]]];
    try reflexivity.
  rewrite (not_class_name K value Hn), Hs.
  apply Z.eqb_eq in Hm. now rewrite Hm.
Qed.

Lemma validated_rejected (K : headers) (value : string) :
  rejected_value K value -> validated K value = None.
Proof.
  unfold validated. intros [Hn H]. rewrite (not_class_name K value Hn).
  destruct H as [-> | [v [-> Hm]]]; [reflexivity |].
  apply Z.eqb_neq in Hm. now rewrite Hm.
Qed.

Lemma merged_type_bits (K : headers) (cur v n : Z) :
  0 <= n < 64 ->
  Z.testbit (merged_type K cur v) n =
  if Z.testbit (BTRFS_DEV_ALLOCATION_MASK K) n then Z.testbit v n
  else Z.testbit cur n.
Proof.
  intro Hn. unfold merged_type, not_u64.
  rewrite Z.lor_spec, !Z.land_spec, Z.lnot_spec by lia.
  rewrite Z.ones_spec_low by lia.
  destruct (Z.testbit (BTRFS_DEV_ALLOCATION_MASK K) n),
    (Z.testbit v n), (Z.testbit cur n); reflexivity.
Qed.

(** A set of the allocation hint with an accepted value, in any
    execution that shows a read of the stored type bits [cur]: what
    follows the read is one request, for the same device, that selects
    the type field alone and carries [cur] with the bits of the
    allocation mask replaced by those of the value. *)
Lemma set_merges_after_read (K : headers) (type : Z)
    (object name value : string) (v : Z) (t : trace) (ret : Z) :
  exec (prop_allocation_hint K type object name (Some value)) t ret ->
  accepted_value K value v ->
  forall fd rq r cur more,
    exchanges t = (fd, rq, (r, cur)) :: more ->
    0 <= r ->
    rq = read_request K (dp_devid rq) /\
    (exists wr,
       more = [(fd, write_request K (dp_devid rq) (merged_type K (dp_type cur) v), wr)] /\
       (0 <= fst wr -> ret = 0) /\ (fst wr < 0 -> ret = -4)) /\
    (forall n, 0 <= n < 64 ->
       Z.testbit (merged_type K (dp_type cur) v) n =
       if Z.testbit (BTRFS_DEV_ALLOCATION_MASK K) n then Z.testbit v n
       else Z.testbit (dp_type cur) n).
Proof.
  intros He Ha fd rq r cur more Hx Hr.
  pose proof (exec_wp _ _ (wp_allocation_hint_set K type object name value) t ret He)
    as [H | [fd' [devid [r' [cur' [[Hn [H _]] | [_ H]]]]]]];
    rewrite Hx in H; try discriminate H.
  - injection H as -> -> -> ->. lia.
  - rewrite (validated_accepted K value v Ha) in H.
    destruct H as [wr [H [H1 H2]]]. injection H as -> -> -> -> ->.
    split; [reflexivity |]. split; [exists wr; auto |].
    intros n Hn. now apply merged_type_bits.
Qed.

(** C3.  A set of the allocation hint with a value that is no class name
    and either no integer or an integer with a bit outside the allocation
    mask sends no request that writes: the only exchange, if any, is the
    read; and once the stored bits were read the result is -3. *)
Theorem allocation_hint_set_rejects (K : headers) (type : Z)
    (object name value : string) (t : trace) (ret : Z) :
  exec (prop_allocation_hint K type object name (Some value)) t ret ->
  rejected_value K value ->
  (exchanges t = [] \/
   exists fd devid ans, exchanges t = [(fd, read_request K devid, ans)]) /\
  (forall fd rq r cur more,
     exchanges t = (fd, rq, (r, cur)) :: more -> 0 <= r -> ret = -3).
Proof.
  intros He Ha.
  pose proof (exec_wp _ _ (wp_allocation_hint_set K type object name value) t ret He)
    as [H | [fd' [devid [r' [cur' [[Hn [H _]] | [Hn H]]]]]]].
  - split; [now left |]. intros fd rq r cur more Hx. rewrite Hx in H. discriminate.
  - split; [right; eauto |]. intros fd rq r cur more Hx Hr. rewrite Hx in H.
    injection H as -> -> -> ->. lia.
  - rewrite (validated_rejected K value Ha) in H. destruct H as [H ->].
    split; [right; eauto | reflexivity].
Qed.

Lemma allocation_hint_set_rejects_witness :
  fst set_9 = -3 /\
  map (fun x => snd (fst x)) (exchanges (snd set_9)) = [read_request K0 1].
Proof.
  destruct (allocation_hint_set_rejects K0 1 "/dev/sdb" "allocation_hint" "9"
              (snd set_9) (fst set_9) (exec_run _ _)) as [_ H].
  - split.
    + intros [H | [H | [H | H]]]; discriminate H.
    + right. exists 9. split; [reflexivity | discriminate].
  - split; [| reflexivity].
    apply (H 3 (read_request K0 1) 0
             {| dp_devid := 1; dp_properties := 1152921504606846977; dp_type := 13 |}
             []); [reflexivity | lia].
Defined.

Lemma descr_hint_text (K : headers) (v : Z) :
  match descr_of_value v (allocation_hint_description K) with
  | Some descr => descr
  | None => "unknown:" +++ dec v
  end = hint_text K v.
Proof.
  unfold hint_text. cbn [descr_of_value allocation_hint_description].
  repeat match goal with
         | |- context [Z.eqb ?a ?b] => destruct (Z.eqb a b); [reflexivity |]
         end.
  reflexivity.
Qed.

Lemma wp_allocation_hint_get (K : headers) (type : Z) (object name : string) :
  wp (prop_allocation_hint K type object name None) [] (get_outcome K object).
Proof.
  unfold prop_allocation_hint. apply wp_bind.
  eapply wp_mono; [| apply wp_find_devid].
  intros t [[ret devid] path] [t1 [-> [Hx [Hp Hd]]]].
  cbn [app fst snd] in *. unfold get_outcome.
  destruct (Z.eqb_spec ret 0); cbn [negb wp bind do];
    [| left; exact Hx].
  intros fd. cbn in fd.
  destruct (Z.ltb_spec fd 0); cbn [wp bind do]; [left; now observe Hx |].
  intros [r cur].
  destruct (Z.ltb_spec r 0); cbn [wp bind do].
  { intros [] []. right. exists fd, (int_of_out devid), r, cur.
    observe Hx. rewrite Hp. split; [reflexivity | left; auto]. }
  pose proof (descr_hint_text K (Z.land (dp_type cur) (BTRFS_DEV_ALLOCATION_MASK K)))
    as Ht.
  destruct (descr_of_value (Z.land (dp_type cur) (BTRFS_DEV_ALLOCATION_MASK K))
              (allocation_hint_description K)) as [descr |];
    cbn [wp bind do]; intros [] []; right;
    exists fd, (int_of_out devid), r, cur; observe Hx; rewrite Hp, <- Ht;
    (split; [reflexivity | right; auto]).
Qed.

(** C9, as the code has it.  A get of the allocation hint, once the
    stored type bits [cur] were read, returns 0 and prints one line:
    the device id, the path, and after [allocation_hint=] the name of the
    first class of the table whose value is [cur] under the allocation
    mask, or, when there is none, [unknown:] and that number. *)
Theorem allocation_hint_get_prints (K : headers) (type : Z) (object name : string)
    (t : trace) (ret : Z) :
  exec (prop_allocation_hint K type object name None) t ret ->
  forall fd rq r cur more,
    exchanges t = (fd, rq, (r, cur)) :: more ->
    0 <= r ->
    exists devid,
      rq = read_request K (cast_u64 devid) /\ more = [] /\ ret = 0 /\
      printed t =
      [hint_line devid object
         (hint_text K (Z.land (dp_type cur) (BTRFS_DEV_ALLOCATION_MASK K)))].
Proof.
  intros He fd rq r cur more Hx Hr.
  pose proof (exec_wp _ _ (wp_allocation_hint_get K type object name) t ret He)
    as [H | [fd' [devid [r' [cur' [H H1]]]]]];
    rewrite Hx in H; [discriminate H |].
  injection H as -> -> -> -> ->.
  destruct H1 as [[Hn _] | [_ [-> Hp]]]; [lia |].
  exists devid. auto.
Qed.

Lemma allocation_hint_get_prints_witness :
  fst get_odd_hint = 0 /\
  printed (snd get_odd_hint) = [hint_line 1 "/dev/sdb" "unknown:5"].
Proof.
  destruct (allocation_hint_get_prints K0 1 "/dev/sdb" "allocation_hint"
              (snd get_odd_hint) (fst get_odd_hint) (exec_run _ _)
              3 (read_request K0 1) 0
              {| dp_devid := 1; dp_properties := 1152921504606846977; dp_type := 13 |}
              [] eq_refl)
    as [devid [_ [_ [H _]]]]; [lia |].
  split; [exact H | reflexivity].
Defined.

Lemma length_append (p s : string) :
  String.length (p +++ s) = (String.length p + String.length s)%nat.
Proof. induction p as [| c p IH]; simpl; [reflexivity | now rewrite IH]. Qed.

Lemma substring_all (s : string) : String.substring 0 (String.length s) s = s.
Proof. induction s as [| c s IH]; simpl; [reflexivity | now rewrite IH]. Qed.

Lemma substring_append (p s : string) :
  String.substring (String.length p) (String.length s) (p +++ s) = s.
Proof. induction p as [| c p IH]; simpl; [apply substring_all | exact IH]. Qed.

Lemma append_ends_with (p s : string) : ends_with (p +++ s) s = true.
Proof.
  unfold ends_with. rewrite length_append.
  replace (String.length p + String.length s - String.length s)%nat
    with (String.length p) by lia.
  rewrite substring_append, String.eqb_refl.
  apply andb_true_iff. split; [apply Nat.leb_le; lia | reflexivity].
Qed.

(** C9, with the number alone after [allocation_hint=], does not hold:
    with the type bits 13 and an allocation mask of 7, no class has the
    value 5, and the line printed does not end with [allocation_hint=5]. *)
Lemma allocation_hint_get_number_counterexample :
  printed (snd get_odd_hint) =
  ["devid=1, path=/dev/sdb: allocation_hint=unknown:5" +++ newline] /\
  forall prefix : string,
    printed (snd get_odd_hint) <>
    [prefix +++ "allocation_hint=" +++ dec (Z.land 13 7) +++ newline].
Proof.
  split; [reflexivity |].
  intros prefix H.
  pose proof (append_ends_with prefix
                ("allocation_hint=" +++ dec (Z.land 13 7) +++ newline)) as E.
  assert (Hl : ["devid=1, path=/dev/sdb: allocation_hint=unknown:5" +++ newline] =
               [prefix +++ "allocation_hint=" +++ dec (Z.land 13 7) +++ newline])
    by exact H.
  apply (f_equal (hd EmptyString)) in Hl. unfold hd in Hl.
  rewrite <- Hl in E. discriminate E.
Qed.

(** ** Integers with something after them *)








(** ** Handles *)

(** C8, where the code departs from it.  When the file system
    information is refused with EPERM, the resolver returns -EPERM with
    the handle of the mount point still open, and so does a get of the
    allocation hint, which returns -5. *)
Theorem find_devid_eperm_leaks :
  fst resolve_denied = (- EPERM, None, "/mnt") /\
  leaked (snd resolve_denied) = [Handle 3] /\
  fst get_hint_denied = -5 /\
  leaked (snd get_hint_denied) = [Handle 3].
Proof. repeat split; reflexivity. Qed.

(** X10. [prop_compression] gives back, on every path, the handle and
    the buffers that it obtained. *)
Lemma prop_compression_releases (type : Z) (object name : string)
    (value : option string) (t : trace) (ret : Z) :
  exec (prop_compression type object name value) t ret -> leaked t = [].
Proof.
  revert t ret; refine (exec_wp _ _ _).
  unfold prop_compression, out_compression, free.
  destruct value as [value |]; cbn [wp bind do].
  all: repeat exec_step.
  all: unfold leaked, leaked_from; cbn [fold_left track].
  all: repeat (decide_test; try (exfalso; lia); cbn [release resource_eqb]).
  all: try reflexivity.
Qed.

Ltac scan_events := repeat (apply Forall_cons; [exact I |]); apply Forall_nil.

Lemma wp_scan_events (devpath : string) (fd rdev : Z) (n : nat) :
  forall (i : Z) (pre : trace),
    wp (scan_devices devpath fd rdev n i) pre
       (fun t _ => exists t1, t = pre ++ t1 /\ Forall scan_event t1).
Proof.
  induction n as [| n IH]; intros i pre; cbn [scan_devices wp bind do].
  - exists []. now rewrite app_nil_r.
  - intros [ret info].
    assert (Hnext : forall pre' l,
               pre' = pre ++ l -> Forall scan_event l ->
               wp (scan_devices devpath fd rdev n (i + 1)) pre'
                  (fun t _ => exists t1, t = pre ++ t1 /\ Forall scan_event t1)).
    { intros pre' l -> Hl. eapply wp_mono; [| apply IH].
      intros t a [t1 [-> H1]]. exists (l ++ t1).
      rewrite app_assoc. split; [reflexivity | now apply Forall_app]. }
    destruct (Z.eqb_spec ret (- ENODEV));
      [apply (Hnext _ [Ev (Get_device_info fd i) (ret, info)]);
       [reflexivity | scan_events] |].
    destruct (Z.eqb_spec ret 0); cbn [negb wp bind do].
    + destruct (di_path info) as [p |];
        [| apply (Hnext _ [Ev (Get_device_info fd i) (ret, info)]);
           [reflexivity | scan_events]].
      cbn [wp bind do]. intros [r st].
      destruct (Z.eqb_spec r 0); cbn [negb wp bind do].
      * destruct ((major st =? major rdev) && (minor st =? minor rdev)).
        -- cbn [wp]. eexists. rewrite <- !app_assoc.
           split; [reflexivity | cbn [app]; scan_events].
        -- apply (Hnext _ [Ev (Get_device_info fd i) (ret, info); Ev (Stat p) (r, st)]);
             [now rewrite <- app_assoc | scan_events].
      * intros []. eexists. rewrite <- !app_assoc.
        split; [reflexivity | cbn [app]; scan_events].
    + intros []. eexists. rewrite <- !app_assoc.
      split; [reflexivity | cbn [app]; scan_events].
Qed.

Lemma scan_events_hold (t : trace) :
  Forall scan_event t -> forall held, leaked_from held t = held.
Proof.
  induction 1 as [| [c x] t He _ IH]; intro held; [reflexivity |].
  unfold leaked_from in *. cbn [fold_left]. rewrite <- (IH held) at 2.
  f_equal. destruct c; try contradiction He; reflexivity.
Qed.

(** ** The table of properties *)

(** C6.  When the tags of the object types are flags that are not zero,
    the entries of the table have distinct names, each has a set of
    object types that is not empty and a handler that is not NULL; and
    the entry of [compression], whose last initializer has no designator,
    has the type [prop_object_inode] alone and [prop_compression] as its
    handler. *)
Theorem registry_well_formed (K : headers) :
  wf_object_types K ->
  NoDup (names (registry K)) /\
  Forall (fun e => name e <> None /\ types e <> 0 /\ handler e <> None)
         (registry K) /\
  exists e,
    lookup K "compression" = Some e /\
    types e = prop_object_inode K /\
    handler e = Some prop_compression.
Proof.
  intros [Hd [Hr [Hs Hi]]]. split; [| split].
  - cbn. repeat constructor; cbn; intuition discriminate.
  - cbn. repeat constructor; cbn; try discriminate; try lia.
    intro H. apply Z.lor_eq_0_iff in H. lia.
  - eexists. cbn. repeat split.
Qed.

Lemma registry_well_formed_witness :
  names (registry K0) = ["ro"; "label"; "compression"; "allocation_hint"] /\
  NoDup (names (registry K0)) /\
  option_map types (lookup K0 "compression") = Some 8.
Proof.
  destruct (registry_well_formed K0) as [H _].
  - unfold wf_object_types. cbn. lia.
  - repeat split. exact H.
Defined.

(** ** ci/should-run-test *)

(** X19. The script asks for the tests exactly when the branch is not
    set or empty, or is [devel], [master] or [release-test]; any other
    branch, [coverity_scan] among them, gives the status 1. *)
Theorem should_run_test_branches (v : option string) :
  (should_run_test v = 0 <->
   expand v = EmptyString \/ expand v = "devel" \/ expand v = "master" \/
   expand v = "release-test") /\
  (should_run_test v = 0 \/ should_run_test v = 1).
Proof.
  unfold should_run_test. cbv zeta.
  repeat match goal with
         | |- context [String.eqb ?a ?b] => destruct (String.eqb_spec a b)
         end; cbn [orb].
  all: split; [split | auto].
  all: try (intros _; auto; fail).
  all: try (intros; reflexivity).
  all: try discriminate.
  all: intros [H | [H | [H | H]]]; congruence.
Qed.

(** ** The read-only flag and the label *)

(** X1. A get of the read-only flag asks the library once and never
    sets anything; when the library succeeds it prints the one line
    [ro=true] or [ro=false], by the flag, and returns 0; when it fails it
    prints nothing, reports the error and returns the negated errno. *)
Theorem read_only_get_prints (type : Z) (object name : string)
    (t : trace) (ret : Z) :
  exec (prop_read_only type object name None) t ret ->
  set_read_only_calls t = [] /\
  exists err flag,
    get_read_only_calls t = [(object, (err, flag))] /\
    (err = 0 ->
     ret = 0 /\ errors t = [] /\
     printed t = ["ro=" +++ flag_text flag +++ newline]) /\
    (err <> 0 ->
     printed t = [] /\
     exists e,
       t = [Ev (Btrfs_util_get_subvolume_read_only object) (err, flag);
            Ev (Error_btrfs_util err) tt; Ev Errno e] /\
       ret = - e).
Proof.
  revert t ret; refine (exec_wp _ _ _).
  unfold prop_read_only. cbn [wp bind do]. repeat exec_step.
  all: split; [reflexivity |]; eexists; eexists; split; [reflexivity |].
  all: split; intro; try contradiction; try lia.
  all: repeat split; try reflexivity.
  eexists; split; reflexivity.
Qed.

Lemma read_only_get_prints_witness :
  fst get_ro = 0 /\ printed (snd get_ro) = ["ro=false" +++ newline].
Proof.
  destruct (read_only_get_prints 4 "/mnt/subvol" "ro" (snd get_ro) (fst get_ro)
              (exec_run _ _)) as [_ [err [flag [Hc [H _]]]]].
  injection Hc as <- <-. destruct (H eq_refl) as [H1 [_ H2]].
  split; [exact H1 | exact H2].
Defined.

Lemma flag_text_cases (b : bool) :
  (String.eqb (flag_text b) "true" = b) /\
  (String.eqb (flag_text b) "false" = negb b).
Proof. destruct b; split; reflexivity. Qed.

(** X2. Set the read-only flag to "true" or "false", then get it: if the
    set call succeeds and the library then reports the flag that was
    set, the set passed the flag of that text, both calls return 0 and
    the line printed is [ro=] with the text that was given. *)
Theorem read_only_set_then_get (type : Z) (object name : string) (b : bool)
    (t : trace) (ret : Z * Z) :
  exec (both (prop_read_only type object name (Some (flag_text b)))
             (prop_read_only type object name None)) t ret ->
  (forall c, In c (set_read_only_calls t) -> snd c = 0) ->
  (forall obj b' err obj' r,
     In (obj, b', err) (set_read_only_calls t) ->
     In (obj', r) (get_read_only_calls t) -> r = (0, b')) ->
  set_read_only_calls t = [(object, b, 0)] /\
  ret = (0, 0) /\
  printed t = ["ro=" +++ flag_text b +++ newline].
Proof.
  revert t ret; refine (exec_wp _ _ _).
  unfold both, prop_read_only.
  destruct (flag_text_cases b) as [-> ->].
  destruct b; cbn [negb wp bind do].
  all: repeat exec_step.
  all: cbn [set_read_only_calls get_read_only_calls printed flat_map app In];
    intros Hs Hg.
  all: try (specialize (Hs _ (or_introl eq_refl)); cbn [snd] in Hs; lia).
  all: specialize (Hg _ _ _ _ _ (or_introl eq_refl) (or_introl eq_refl)).
  all: injection Hg as ? ?; subst; try lia.
  all: repeat split; reflexivity.
Qed.

Lemma read_only_set_then_get_witness :
  fst set_get_ro = (0, 0) /\ printed (snd set_get_ro) = ["ro=false" +++ newline].
Proof.
  destruct (read_only_set_then_get 4 "/mnt/subvol" "ro" false
              (snd set_get_ro) (fst set_get_ro) (exec_run _ _))
    as [_ [H1 H2]].
  - intros c [<- | []]. reflexivity.
  - intros obj b' err obj' r [H | []] [H' | []].
    injection H as <- <- <-. injection H' as <- <-. reflexivity.
  - split; [exact H1 | exact H2].
Defined.

(** X3. The label handler adds nothing of its own: a set makes the one
    call of [set_label] with the value as it is and returns its result;
    a get returns the result of [get_label], and prints the line
    [label=] with the label exactly when that result is 0. *)
Theorem label_passes_through (type : Z) (object name : string)
    (value : option string) (t : trace) (ret : Z) :
  exec (prop_label type object name value) t ret ->
  match value with
  | Some v => t = [Ev (Set_label object v) ret]
  | None =>
      exists label,
        (ret = 0 /\
         t = [Ev (Get_label object) (0, label);
              Ev (Printf ("label=" +++ label +++ newline)) tt]) \/
        (ret <> 0 /\ t = [Ev (Get_label object) (ret, label)])
  end.
Proof.
  revert t ret; refine (exec_wp _ _ _).
  unfold prop_label. destruct value as [v |]; cbn [wp bind do].
  - intro x. reflexivity.
  - repeat exec_step; eexists; [left | right]; subst; split;
      first [reflexivity | assumption].
Qed.

Lemma label_passes_through_witness :
  fst get_label_run = 0 /\ printed (snd get_label_run) = ["label=data" +++ newline].
Proof.
  pose proof (label_passes_through 1 "/dev/sdb" "label" None
                (snd get_label_run) (fst get_label_run) (exec_run _ _))
    as [label [[H _] | [H _]]].
  - split; [exact H | reflexivity].
  - exfalso. apply H. reflexivity.
Defined.

(** ** The compression property *)

(** X4. [prop_compression] opens the object once, read-only for a get
    and read-write for a set; when the open fails it reports it, returns
    the negated errno and does nothing else: no allocation, no access to
    the attribute, no close. *)
Theorem compression_opens (type : Z) (object name : string)
    (value : option string) (t : trace) (ret : Z) :
  exec (prop_compression type object name value) t ret ->
  exists fd,
    opens t = [(object, open_mode value, fd)] /\
    (fd = -1 ->
     exists e,
       t = [Ev (Open_file_or_dir3 object (open_mode value)) fd; Ev Errno e;
            Ev (Error ("failed to open " +++ object +++ ": %m")) tt] /\
       ret = - e).
Proof.
  revert t ret; refine (exec_wp _ _ _).
  unfold prop_compression, out_compression, free.
  destruct value as [value |]; cbn [wp bind do open_mode].
  all: repeat exec_step.
  all: eexists; split; [reflexivity |]; intro; try contradiction; try lia.
  all: eexists; split; reflexivity.
Qed.

Lemma compression_opens_witness :
  fst get_no_object = -2 /\ opens (snd get_no_object) = [("/mnt/file", O_RDONLY, -1)].
Proof.
  destruct (compression_opens 8 "/mnt/file" "compression" None
              (snd get_no_object) (fst get_no_object) (exec_run _ _))
    as [fd [Ho H]].
  assert (Hfd : fd = -1) by (vm_compute in Ho; congruence).
  destruct (H Hfd) as [e [Ht Hr]].
  assert (He : e = 2)
    by (apply (f_equal errnos) in Ht; vm_compute in Ht; congruence).
  subst e. split; [exact Hr | reflexivity].
Defined.

(** X5. A set of the compression property never prints and never reads
    the attribute; it writes at most once, to the attribute [btrfs.]
    followed by the property name, the value as it is with its length,
    except that "no" and "none" are written as the empty value; and it
    writes nothing only when the open or the allocation failed. *)
Theorem compression_set_writes (type : Z) (object name value : string)
    (t : trace) (ret : Z) :
  exec (prop_compression type object name (Some value)) t ret ->
  printed t = [] /\ xattr_gets t = [] /\
  ((xattr_writes t = [] /\
    (opens t = [(object, O_RDWR, -1)] \/
     mallocs t = [(XATTR_BTRFS_PREFIX_LEN + strlen name + 1, 0)])) \/
   exists sret,
     xattr_writes t =
     [(XATTR_BTRFS_PREFIX +++ name, stored_value value,
       strlen (stored_value value), sret)]).
Proof.
  revert t ret; refine (exec_wp _ _ _).
  unfold prop_compression, out_compression, free.
  fold (stored_value value). cbn [wp bind do].
  repeat exec_step.
  all: split; [reflexivity |]; split; [reflexivity |].
  all: cbn [xattr_writes opens mallocs flat_map app].
  all: first [ right; eexists; reflexivity
             | left; split; [reflexivity |]; subst;
               first [ left; reflexivity | right; reflexivity ] ].
Qed.

Lemma compression_set_writes_witness :
  xattr_writes (snd set_zstd) = [("btrfs.compression", "zstd", 4, 0)].
Proof.
  destruct (compression_set_writes 8 "/mnt/file" "compression" "zstd"
              (snd set_zstd) (fst set_zstd) (exec_run _ _))
    as [_ [_ [[H _] | [sret H]]]].
  - discriminate H.
  - assert (Hs : sret = 0) by (vm_compute in H; congruence).
    subst sret. exact H.
Defined.

(** X6. The result of a set of the compression property, once the
    attribute was written: 0 when the write succeeds; when it fails, the
    negated errno with a message, except that a failure with errno
    ENOATTR gives the result 0 and no message. *)
Theorem compression_set_status (type : Z) (object name value : string)
    (t : trace) (ret : Z) :
  exec (prop_compression type object name (Some value)) t ret ->
  forall n v size sret,
    xattr_writes t = [(n, v, size, sret)] ->
    (0 <= sret -> ret = 0 /\ errors t = [] /\ errnos t = []) /\
    (sret < 0 ->
     exists e,
       errnos t = [e] /\
       (e = ENOATTR -> ret = 0 /\ errors t = []) /\
       (e <> ENOATTR ->
        ret = - e /\
        errors t = ["failed to set compression for " +++ object +++ ": %m"])).
Proof.
  revert t ret; refine (exec_wp _ _ _).
  unfold prop_compression, out_compression, free.
  fold (stored_value value). cbn [wp bind do].
  repeat exec_step.
  all: cbn [xattr_writes errors errnos flat_map app];
    intros an av asize asret Hw.
  all: try discriminate Hw.
  all: injection Hw as <- <- <- <-.
  all: split; intro; try lia.
  all: try (repeat split; reflexivity).
  all: eexists; split; [reflexivity |].
  all: split; intro; try (exfalso; unfold ENOATTR, ENODATA in *; lia).
  all: split; reflexivity.
Qed.

Lemma compression_set_status_witness :
  xattr_writes (snd set_enoattr) = [("btrfs.compression", "zstd", 4, -1)] /\
  fst set_enoattr = 0 /\ errors (snd set_enoattr) = [].
Proof.
  destruct (compression_set_status 8 "/mnt/file" "compression" "zstd"
              (snd set_enoattr) (fst set_enoattr) (exec_run _ _)
              "btrfs.compression" "zstd" 4 (-1) eq_refl) as [_ H].
  destruct H as [e [He [H _]]]; [lia |].
  assert (e = ENOATTR) by (vm_compute in He; vm_compute; congruence).
  split; [reflexivity | exact (H H0)].
Defined.

(** X7. A get of the compression property never writes the attribute
    and reads it at most twice.  The second read asks, into a buffer
    that was allocated with that size, for exactly the length that the
    first read gave; when it succeeds the get returns 0 and prints
    [compression=] with at most that many bytes of the data.  Nothing is
    printed unless there was a second read. *)
Theorem compression_get_reads (type : Z) (object name : string)
    (t : trace) (ret : Z) :
  exec (prop_compression type object name None) t ret ->
  xattr_writes t = [] /\
  (List.length (xattr_gets t) <= 2)%nat /\
  ((List.length (xattr_gets t) <= 1)%nat -> printed t = []) /\
  forall g len d0 n buf size sret data,
    xattr_gets t = [(g, (len, d0)); (n, buf, size, (sret, data))] ->
    g = (XATTR_BTRFS_PREFIX +++ name, 0, 0) /\
    n = XATTR_BTRFS_PREFIX +++ name /\ size = len /\ 0 <= len /\
    buf <> 0 /\ In (len, buf) (mallocs t) /\
    (0 <= sret ->
     ret = 0 /\ errors t = [] /\
     printed t = ["compression=" +++ prec_s (cast_int len) data +++ newline]).
Proof.
  revert t ret; refine (exec_wp _ _ _).
  unfold prop_compression, out_compression, free. cbn [wp bind do].
  repeat exec_step.
  all: cbn [xattr_writes xattr_gets printed errors mallocs flat_map app List.length In].
  all: split; [reflexivity |]; split; [lia |]; split;
    [intro; first [reflexivity | exfalso; lia] |].
  all: intros g len d0 an abuf asize asret adata Hg; try discriminate Hg.
  all: injection Hg as <- <- <- <- <- <- <-.
  all: repeat split; auto; try lia.
  all: subst; reflexivity.
Qed.

Lemma compression_get_reads_witness :
  fst get_zstd = 0 /\ printed (snd get_zstd) = ["compression=zstd" +++ newline].
Proof.
  destruct (compression_get_reads 8 "/mnt/file" "compression"
              (snd get_zstd) (fst get_zstd) (exec_run _ _)) as [_ [_ [_ H]]].
  destruct (H ("btrfs.compression", 0, 0) 4 "zstd" "btrfs.compression" 4096 4 4 "zstd"
              eq_refl) as [_ [_ [_ [_ [_ [_ H1]]]]]].
  destruct H1 as [H1 [_ H2]]; [lia |]. split; [exact H1 | exact H2].
Defined.

(** X9. Whenever an allocation fails, [prop_compression] returns -ENOMEM
    without any message: it prints nothing, writes nothing, and does not
    read the attribute beyond the first read. *)
Theorem compression_no_memory (type : Z) (object name : string)
    (value : option string) (t : trace) (ret : Z) :
  exec (prop_compression type object name value) t ret ->
  forall size,
    In (size, 0) (mallocs t) ->
    ret = - ENOMEM /\ errors t = [] /\ printed t = [] /\
    xattr_writes t = [] /\ (List.length (xattr_gets t) <= 1)%nat.
Proof.
  revert t ret; refine (exec_wp _ _ _).
  unfold prop_compression, out_compression, free.
  destruct value as [value |]; cbn [wp bind do].
  all: repeat exec_step.
  all: cbn [xattr_writes xattr_gets printed errors mallocs flat_map app List.length In].
  all: intros asize Hin.
  all: repeat match goal with
         | H : _ \/ _ |- _ => destruct H
         | H : False |- _ => destruct H
         | H : (_, _) = (_, _) |- _ => injection H as ? ?; subst
         end.
  all: try congruence.
  all: repeat split; try reflexivity; try lia.
Qed.

Lemma compression_no_memory_witness :
  fst get_no_memory = - ENOMEM /\ errors (snd get_no_memory) = [].
Proof.
  destruct (compression_no_memory 8 "/mnt/file" "compression" None
              (snd get_no_memory) (fst get_no_memory) (exec_run _ _) 18)
    as [H1 [H2 _]].
  - left. reflexivity.
  - split; [exact H1 | exact H2].
Defined.

Lemma cast_int_small (z : Z) : 0 <= z <= INT_MAX -> cast_int z = z.
Proof.
  unfold cast_int, INT_MAX. intro H.
  rewrite Z.mod_small by lia. lia.
Qed.

Lemma until_nul_whole (s : string) : no_nul s -> until_nul s = s.
Proof.
  induction s as [| c s IH]; cbn [no_nul until_nul]; [reflexivity |].
  intros [Hc Hs]. apply Ascii.eqb_neq in Hc. rewrite Hc, IH by exact Hs.
  reflexivity.
Qed.

Lemma prec_s_whole (s : string) :
  no_nul s -> strlen s <= INT_MAX -> prec_s (cast_int (strlen s)) s = s.
Proof.
  intros Hn Hl. unfold prec_s, strlen in *.
  rewrite cast_int_small by lia.
  destruct (Z.ltb_spec (Z.of_nat (String.length s)) 0); [lia |].
  rewrite until_nul_whole, Nat2Z.id by exact Hn. apply substring_all.
Qed.

(** X8. Set the compression property to a value other than "no" and
    "none", then get it: if nothing fails and the file system gives back
    what was written, both calls return 0 and the line printed is
    [compression=] with the value. *)
Theorem compression_set_then_get (type : Z) (object name value : string)
    (t : trace) (ret : Z * Z) :
  exec (set_then_get type object name value) t ret ->
  value <> "no" -> value <> "none" ->
  no_nul value -> strlen value <= INT_MAX ->
  (forall o, In o (opens t) -> snd o <> -1) ->
  (forall m, In m (mallocs t) -> snd m <> 0) ->
  (forall w, In w (xattr_writes t) -> 0 <= snd w) ->
  reads_what_was_written t ->
  ret = (0, 0) /\ printed t = ["compression=" +++ value +++ newline].
Proof.
  intros He Hno Hnone Hnul Hlen. revert t ret He; refine (exec_wp _ _ _).
  unfold set_then_get, prop_compression, out_compression, free.
  apply String.eqb_neq in Hno, Hnone. rewrite Hno, Hnone.
  cbn [orb wp bind do].
  repeat exec_step.
  all: unfold reads_what_was_written;
    cbn [xattr_writes xattr_gets printed opens mallocs flat_map app In];
    intros Ho Hm Hw Hfs.
  all: try (exfalso; apply (Ho _ (or_introl eq_refl)); cbn [snd]; lia).
  all: try (exfalso; apply (Ho _ (or_intror (or_introl eq_refl))); cbn [snd]; lia).
  all: try (exfalso; apply (Hm _ (or_introl eq_refl)); cbn [snd]; lia).
  all: try (exfalso; apply (Hm _ (or_intror (or_introl eq_refl))); cbn [snd]; lia).
  all: try (exfalso; apply (Hm _ (or_intror (or_intror (or_introl eq_refl))));
            cbn [snd]; lia).
  all: try (specialize (Hw _ (or_introl eq_refl)); cbn [snd] in Hw; exfalso; lia).
  all: pose proof (Zle_0_nat (String.length value)) as Hpos; unfold strlen in *.
  all: destruct (Hfs _ _ _ _ _ _ _ _ _ (or_introl eq_refl) (or_introl eq_refl)
                   eq_refl) as [Hz _]; try (exfalso; lia).
  all: destruct (Hfs _ _ _ _ _ _ _ _ _ (or_introl eq_refl)
                   (or_intror (or_introl eq_refl)) eq_refl) as [Hz2 Hd];
    try (exfalso; lia).
  all: specialize (Hd ltac:(assumption)); subst.
  all: split; [reflexivity |].
  all: fold (strlen value); rewrite prec_s_whole by assumption; reflexivity.
Qed.

Lemma compression_set_then_get_witness :
  fst set_get_zstd = (0, 0) /\
  printed (snd set_get_zstd) = ["compression=zstd" +++ newline].
Proof.
  apply (compression_set_then_get 8 "/mnt/file" "compression" "zstd"
           (snd set_get_zstd) (fst set_get_zstd) (exec_run _ _)).
  - discriminate.
  - discriminate.
  - cbn. repeat split; discriminate.
  - cbv. discriminate.
  - intros o [<- | [<- | []]]; discriminate.
  - intros m [<- | [<- | [<- | []]]]; discriminate.
  - intros w [<- | []]. cbn. lia.
  - intros n v size sret n' buf size' r data [Hw | []] [Hg | [Hg | []]] _;
      injection Hw; injection Hg; intros; subst;
      (split; [reflexivity | intro; first [reflexivity | contradiction]]).
Defined.

Lemma prop_compression_releases_witness : leaked (snd get_zstd) = [].
Proof.
  exact (prop_compression_releases 8 "/mnt/file" "compression" None
           (snd get_zstd) (fst get_zstd) (exec_run _ _)).
Defined.

(** ** More on the device resolver *)

Lemma cast_int_range (z : Z) : int_range (cast_int z).
Proof.
  unfold int_range, cast_int.
  pose proof (Z.mod_pos_bound (z + 2 ^ 31) (2 ^ 32) ltac:(lia)). lia.
Qed.

Lemma fs_infos_app (t1 t2 : trace) : fs_infos (t1 ++ t2) = fs_infos t1 ++ fs_infos t2.
Proof. apply flat_map_app. Qed.

Lemma scan_facts_next (i : Z) (n : nat) (l t1 : trace) (res : Z * option Z) :
  queried l = [i] -> fs_infos l = [] -> errors l = [] ->
  scan_facts (i + 1) n t1 res -> scan_facts i (S n) (l ++ t1) res.
Proof.
  intros Hq Hf He [[k [Hk Hi]] [H1 [H2 [H3 [H4 H5]]]]].
  unfold scan_facts.
  rewrite queried_app, fs_infos_app, errors_app, Hq, Hf, He, H1.
  cbn [app].
  split; [exists (S k); split; [lia | cbn [ids]; now rewrite Hi] |].
  split; [reflexivity |]. auto.
Qed.

Lemma wp_scan_facts (devpath : string) (fd rdev : Z) (n : nat) :
  forall (i : Z) (pre : trace),
    wp (scan_devices devpath fd rdev n i) pre
       (fun t res => exists t1, t = pre ++ t1 /\ scan_facts i n t1 res).
Proof.
  induction n as [| n IH]; intros i pre; cbn [scan_devices wp bind do].
  - exists []. rewrite app_nil_r. split; [reflexivity |].
    unfold scan_facts. cbn.
    split; [exists 0%nat; split; [lia | reflexivity] |].
    split; [reflexivity |].
    split; [split; [discriminate | intro H; now contradiction H] |].
    split; [discriminate |]. split; [lia | discriminate].
  - intros [ret info].
    assert (Hnext : forall pre' l,
               pre' = pre ++ l ->
               queried l = [i] -> fs_infos l = [] -> errors l = [] ->
               wp (scan_devices devpath fd rdev n (i + 1)) pre'
                  (fun t res =>
                     exists t1, t = pre ++ t1 /\ scan_facts i (S n) t1 res)).
    { intros pre' l -> Hq Hf He. eapply wp_mono; [| apply IH].
      intros t a [t1 [-> H1]]. exists (l ++ t1).
      rewrite app_assoc. split; [reflexivity | now apply scan_facts_next]. }
    assert (Hend : forall l res,
               queried l = [i] -> fs_infos l = [] ->
               (List.length (errors l) <= 1)%nat ->
               (fst res = 0 <-> snd res <> None) ->
               (forall d, snd res = Some d -> int_range d) ->
               (fst res = 0 -> errors l = []) ->
               scan_facts i (S n) l res).
    { intros l res Hq Hf He H1 H2 H3. unfold scan_facts.
      split; [exists 1%nat; split; [lia | exact Hq] |]. auto. }
    assert (Hleaf : forall l res,
               queried l = [i] -> fs_infos l = [] ->
               (List.length (errors l) <= 1)%nat ->
               (fst res = 0 <-> snd res <> None) ->
               (forall d, snd res = Some d -> int_range d) ->
               (fst res = 0 -> errors l = []) ->
               exists t1, pre ++ l = pre ++ t1 /\ scan_facts i (S n) t1 res).
    { intros l res Hq Hf He H1 H2 H3. exists l. split; [reflexivity |].
      now apply Hend. }
    destruct (Z.eqb_spec ret (- ENODEV));
      [apply (Hnext _ [Ev (Get_device_info fd i) (ret, info)]); reflexivity |].
    destruct (Z.eqb_spec ret 0); cbn [negb wp bind do].
    + destruct (di_path info) as [p |];
        [| apply (Hnext _ [Ev (Get_device_info fd i) (ret, info)]); reflexivity].
      cbn [wp bind do]. intros [r st].
      destruct (Z.eqb_spec r 0); cbn [negb wp bind do].
      * destruct ((major st =? major rdev) && (minor st =? minor rdev)).
        -- cbn [wp]. rewrite <- !app_assoc. cbn [app].
           apply Hleaf; cbn;
             [ reflexivity | reflexivity | lia
             | split; [discriminate | reflexivity]
             | intros d Hd; injection Hd as <-; apply cast_int_range
             | reflexivity ].
        -- apply (Hnext _ [Ev (Get_device_info fd i) (ret, info); Ev (Stat p) (r, st)]);
             [now rewrite <- app_assoc | reflexivity ..].
      * intros []. rewrite <- !app_assoc. cbn [app].
        apply Hleaf; cbn;
          [ reflexivity | reflexivity | lia
          | split; [intro; contradiction | intro H; now contradiction H]
          | discriminate
          | intro; contradiction ].
    + intros []. rewrite <- !app_assoc. cbn [app].
      apply Hleaf; cbn;
        [ reflexivity | reflexivity | lia
        | split; [intro; contradiction | intro H; now contradiction H]
        | discriminate
        | intro; contradiction ].
Qed.

Lemma wp_find_devid_facts (devpath : string) (maxpath : Z) :
  wp (btrfs_find_devid_and_mnt devpath maxpath) []
     (fun t res => asked_in_order t /\ result_facts t (fst (fst res)) (snd (fst res))).
Proof.
  assert (Hnone : forall (t : trace) (ret : Z),
             queried t = [] -> (List.length (fs_infos t) <= 1)%nat ->
             (List.length (errors t) <= 1)%nat -> ret <> 0 ->
             asked_in_order t /\ result_facts t ret None).
  { intros t ret Hq Hf He Hr. split.
    - split; [exact Hf |]. exists 0%nat. split; [exact Hq | now left].
    - split; [split; [intro; contradiction | intro H; now contradiction H] |].
      split; [discriminate |]. split; [exact He | intro; contradiction]. }
  unfold btrfs_find_devid_and_mnt. cbn [wp bind do].
  intros [ret path].
  destruct (Z.eqb_spec ret 0); cbn [negb wp bind do app fst snd];
    [| apply Hnone; cbn; try reflexivity; try lia; assumption].
  intros fd. cbn in fd.
  destruct (Z.ltb_spec fd 0); cbn [wp bind do app fst snd];
    [apply Hnone; cbn; try reflexivity; lia |].
  intros [r rdev].
  destruct (Z.eqb_spec r 0); cbn [negb wp bind do app fst snd];
    [| intros [] []; apply Hnone; cbn; try reflexivity; try lia; assumption].
  intros [r1 max_id].
  destruct (Z.ltb_spec r1 0); cbn [wp bind do app fst snd].
  - intros e1. cbn in e1. destruct (Z.eqb_spec e1 EPERM); cbn [wp bind do app fst snd].
    + apply Hnone; cbn; try reflexivity; try lia. subst e1. discriminate.
    + intros [] []. apply Hnone; cbn; try reflexivity; try lia.
  - apply wp_bind. eapply wp_mono; [| apply wp_scan_facts].
    intros t [ret' devid] [t1 [-> [[k [Hk Hq]] [Hf [Hi [Hd [He Hz]]]]]]].
    cbn [wp bind do fst snd] in *. intros [].
    rewrite <- !app_assoc.
    unfold asked_in_order, result_facts.
    rewrite !queried_app, !fs_infos_app, !errors_app, Hq, Hf.
    cbn [queried fs_infos errors flat_map app List.length].
    rewrite !app_nil_r.
    split; [split; [lia |] |].
    + exists k. split; [reflexivity |]. right. exists r1, max_id.
      split; [reflexivity |]. split; [lia | exact Hk].
    + auto.
Qed.

(** X13. Whatever the environment answers, the resolver asks for the
    file system information at most once, and asks about the device ids
    0, 1, 2, ... in this order, without a gap and without asking twice;
    it asks about none unless the information was given, and then about
    no more than the largest id plus one. *)
Theorem find_devid_asks_in_order (devpath : string) (maxpath : Z)
    (t : trace) (res : Z * option Z * string) :
  exec (btrfs_find_devid_and_mnt devpath maxpath) t res -> asked_in_order t.
Proof.
  intro H. exact (proj1 (exec_wp _ _ (wp_find_devid_facts devpath maxpath) t res H)).
Qed.

Lemma find_devid_asks_in_order_witness : asked_in_order (snd resolve_sdb).
Proof.
  exact (find_devid_asks_in_order "/dev/sdb" PATH_MAX (snd resolve_sdb)
           (fst resolve_sdb) (exec_run _ _)).
Defined.

(** X14. Whatever the environment answers, the resolver returns 0
    exactly when it stored a device id, the id stored is in the range of
    an [int], at most one message is given to [error], and none when the
    result is 0. *)
Theorem find_devid_result (devpath : string) (maxpath : Z)
    (t : trace) (ret : Z) (devid : option Z) (path : string) :
  exec (btrfs_find_devid_and_mnt devpath maxpath) t (ret, devid, path) ->
  result_facts t ret devid.
Proof.
  intro H.
  exact (proj2 (exec_wp _ _ (wp_find_devid_facts devpath maxpath) t _ H)).
Qed.

Lemma find_devid_result_witness : result_facts (snd resolve_sdb) 0 (Some 1).
Proof.
  exact (find_devid_result "/dev/sdb" PATH_MAX (snd resolve_sdb) 0 (Some 1) "/mnt"
           (exec_run fine (btrfs_find_devid_and_mnt "/dev/sdb" PATH_MAX))).
Defined.

(** X12. Before its loop the resolver leaves in one of five ways: with
    the result of the mount point lookup when it fails, having opened
    nothing; with the negative descriptor when the open fails; with the
    result of stat when the input path cannot be examined, after a
    message and the close; with -EPERM when the file system information
    is refused with EPERM; and with -10, whatever errno is otherwise,
    after a message and the close.  Only when the information is given
    does it enter the loop. *)
Theorem find_devid_before_the_loop (devpath : string) (maxpath : Z)
    (t : trace) (res : Z * option Z * string) :
  exec (btrfs_find_devid_and_mnt devpath maxpath) t res ->
  before_the_loop devpath maxpath t res.
Proof.
  revert t res; refine (exec_wp _ _ _).
  unfold btrfs_find_devid_and_mnt, before_the_loop. cbn [wp bind do].
  intros [ret path].
  destruct (Z.eqb_spec ret 0); cbn [negb wp bind do app];
    [| left; eauto].
  subst ret. intros fd. cbn in fd.
  destruct (Z.ltb_spec fd 0); cbn [wp bind do app];
    [right; left; eauto |].
  intros [r rdev].
  destruct (Z.eqb_spec r 0); cbn [negb wp bind do app];
    [| intros [] []; right; right; left; exists path, fd, r, rdev; auto].
  subst r. intros [r1 max_id].
  destruct (Z.ltb_spec r1 0); cbn [wp bind do app].
  - intros e1. cbn in e1. destruct (Z.eqb_spec e1 EPERM); cbn [wp bind do app].
    + subst e1. do 3 right. left. exists path, fd, rdev, r1, max_id. auto.
    + intros [] []. do 4 right. left. exists path, fd, rdev, r1, max_id, e1. auto.
  - apply wp_bind. eapply wp_mono; [| apply wp_scan_facts].
    intros t [ret' devid] [t1 [-> [_ [Hf _]]]].
    cbn [wp bind do]. intros []. do 5 right. exists r1, max_id.
    split; [assumption |].
    rewrite !fs_infos_app, Hf. reflexivity.
Qed.

Lemma find_devid_before_the_loop_witness :
  fst resolve_no_mount = (-2, None, EmptyString) /\
  List.length (snd resolve_no_mount) = 1%nat.
Proof.
  pose proof (find_devid_before_the_loop "/dev/sdb" PATH_MAX
                (snd resolve_no_mount) (fst resolve_no_mount) (exec_run _ _)) as H.
  split; reflexivity.
Defined.

(** ** The allocation hint and the device resolver together *)

Section Resolved.

Variables (o : oracle) (devpath mnt : string) (maxpath rdev r max_id : Z).

Hypothesis mount_found : o (Get_btrfs_mount devpath maxpath) = (0, mnt).
Hypothesis mount_opened : 0 <= o (Btrfs_open_dir mnt 1).
Hypothesis path_examined : o (Stat devpath) = (0, rdev).
Hypothesis info_given : o (Ioctl_fs_info (o (Btrfs_open_dir mnt 1))) = (r, max_id).
Hypothesis info_valid : 0 <= r.

Local Abbreviation fd := (o (Btrfs_open_dir mnt 1)).
Local Abbreviation scanned :=
  (run o (scan_devices devpath fd rdev (Z.to_nat (max_id + 1)) 0)).

Lemma run_find_devid :
  fst (run o (btrfs_find_devid_and_mnt devpath maxpath)) =
  (fst (fst scanned), snd (fst scanned), mnt) /\
  errors (snd (run o (btrfs_find_devid_and_mnt devpath maxpath))) =
  errors (snd scanned).
Proof.
  unfold btrfs_find_devid_and_mnt. cbn [bind do].
  rewrite run_vis, mount_found. cbn [negb Z.eqb bind do].
  rewrite run_vis.
  destruct (Z.ltb_spec fd 0) as [? | _]; [lia |].
  cbn [bind do]. rewrite run_vis, path_examined. cbn [negb Z.eqb bind do].
  rewrite run_vis, info_given.
  destruct (Z.ltb_spec r 0) as [? | _]; [lia |].
  rewrite run_bind. cbn [fst snd errors flat_map app].
  rewrite errors_app.
  destruct (fst scanned) as [ret devid]. cbn [bind do fst snd].
  rewrite run_vis. cbn [run fst snd errors flat_map app].
  rewrite app_nil_r. split; reflexivity.
Qed.

Lemma scan_passed_errors (n : nat) (i : Z) :
  candidate_passed o fd rdev i ->
  errors (snd (run o (scan_devices devpath fd rdev (S n) i))) =
  errors (snd (run o (scan_devices devpath fd rdev n (i + 1)))).
Proof.
  unfold candidate_passed. cbn [scan_devices bind do]. rewrite run_vis.
  cbn [fst snd errors flat_map app].
  destruct (o (Get_device_info fd i)) as [ret info]. cbn [fst snd].
  intros [-> | [-> H]].
  - rewrite Z.eqb_refl. reflexivity.
  - cbn [Z.eqb negb Z.opp ENODEV]. destruct (di_path info) as [p |]; [| reflexivity].
    cbn [bind do]. rewrite run_vis. cbn [fst snd errors flat_map app].
    destruct (o (Stat p)) as [r0 st]. cbn [fst snd] in H.
    destruct H as [-> Hd]. cbn [Z.eqb negb].
    destruct ((major st =? major rdev) && (minor st =? minor rdev)) eqn:E;
      [| reflexivity].
    exfalso. apply Hd. apply andb_true_iff in E. split; apply Z.eqb_eq, E.
Qed.

Lemma scan_exhausted_errors (n : nat) :
  forall i,
    (forall j, i <= j < i + Z.of_nat n -> candidate_passed o fd rdev j) ->
    errors (snd (run o (scan_devices devpath fd rdev n i))) = [].
Proof.
  induction n as [| n IH]; intros i H; [reflexivity |].
  rewrite scan_passed_errors by (apply H; lia).
  apply IH. intros j Hj. apply H. lia.
Qed.

End Resolved.

Lemma resolver_quiet (o : oracle) (devpath : string) (maxpath : Z) :
  exchanges (snd (run o (btrfs_find_devid_and_mnt devpath maxpath))) = [] /\
  printed (snd (run o (btrfs_find_devid_and_mnt devpath maxpath))) = [].
Proof.
  destruct (wp_sound _ _ _ (exec_run o (btrfs_find_devid_and_mnt devpath maxpath))
              [] _ (wp_find_devid devpath maxpath []))
    as [t1 [Ht [H1 [H2 _]]]].
  cbn [app] in Ht. rewrite Ht. split; assumption.
Qed.

(** X15. In an environment that answers a call the same way each time,
    when the mount point is found and opened, the input path examined
    and the file system information given, but every device id up to the
    largest is passed over, a get or a set of the allocation hint
    returns -5 and says nothing: no message is given to [error], no line
    is printed, and no device property is asked for. *)
Theorem allocation_hint_not_found_is_silent (K : headers) (o : oracle)
    (type : Z) (devpath name mnt : string) (value : option string)
    (rdev r max_id : Z) :
  o (Get_btrfs_mount devpath PATH_MAX) = (0, mnt) ->
  0 <= o (Btrfs_open_dir mnt 1) ->
  o (Stat devpath) = (0, rdev) ->
  o (Ioctl_fs_info (o (Btrfs_open_dir mnt 1))) = (r, max_id) ->
  0 <= r -> 0 <= max_id <= INT_MAX ->
  (forall j, 0 <= j <= max_id ->
             candidate_passed o (o (Btrfs_open_dir mnt 1)) rdev j) ->
  let res := run o (prop_allocation_hint K type devpath name value) in
  fst res = -5 /\ errors (snd res) = [] /\ printed (snd res) = [] /\
  exchanges (snd res) = [].
Proof.
  intros Hm Hfd Hst Hfs Hr Hmax Hp res. subst res.
  destruct (run_find_devid o devpath mnt PATH_MAX rdev r max_id Hm Hfd Hst Hfs Hr)
    as [Hres Herr].
  destruct (scan_exhausted o devpath (o (Btrfs_open_dir mnt 1)) rdev
              (Z.to_nat (max_id + 1)) 0) as [Hs _];
    [intros j Hj; apply Hp; lia |].
  rewrite Hs in Hres.
  rewrite (scan_exhausted_errors o devpath mnt rdev (Z.to_nat (max_id + 1)) 0) in Herr
    by (intros j Hj; apply Hp; lia).
  destruct (resolver_quiet o devpath PATH_MAX) as [Hx Hpr].
  unfold prop_allocation_hint. rewrite run_bind. rewrite Hres.
  cbn [fst snd negb Z.eqb run]. rewrite app_nil_r.
  repeat split; assumption.
Qed.

Lemma allocation_hint_not_found_is_silent_witness :
  fst get_hint_stranger = -5 /\ errors (snd get_hint_stranger) = [].
Proof.
  destruct (allocation_hint_not_found_is_silent K0 stranger 1 "/dev/sdc"
              "allocation_hint" "/mnt" None 2080 0 1) as [H1 [H2 _]];
    try reflexivity; try (cbn; lia).
  - unfold INT_MAX. lia.
  - intros j Hj. assert (j = 0 \/ j = 1) as [-> | ->] by lia.
    + left. reflexivity.
    + right. split; [reflexivity |]. cbn. split; [reflexivity |].
      intros [_ H]. vm_compute in H. discriminate H.
  - split; assumption.
Defined.

Lemma cast_u64_int_small (d : Z) : 0 <= d <= INT_MAX -> cast_u64 (cast_int d) = d.
Proof.
  intro H. rewrite cast_int_small by exact H.
  unfold cast_u64, INT_MAX in *. apply Z.mod_small. lia.
Qed.

(** X16. In an environment that answers a call the same way each time,
    when the resolver finds the input device at an id whose query
    reports the device id [d], a get of the allocation hint asks for the
    properties of the device [d] converted to [int] and back to [u64],
    which is [d] itself when [d] is at most INT_MAX, and nothing else;
    when that is answered, it returns 0 and prints the line of that
    device and of the path given. *)
Theorem allocation_hint_targets_match (K : headers) (o : oracle)
    (type : Z) (devpath name mnt : string) (rdev r max_id i d : Z) :
  o (Get_btrfs_mount devpath PATH_MAX) = (0, mnt) ->
  0 <= o (Btrfs_open_dir mnt 1) ->
  o (Stat devpath) = (0, rdev) ->
  o (Ioctl_fs_info (o (Btrfs_open_dir mnt 1))) = (r, max_id) ->
  0 <= r -> 0 <= max_id <= INT_MAX ->
  0 <= i <= max_id ->
  (forall j, 0 <= j < i -> candidate_passed o (o (Btrfs_open_dir mnt 1)) rdev j) ->
  candidate_matches o (o (Btrfs_open_dir mnt 1)) rdev i d ->
  let fd := o (Btrfs_open_dir mnt 1) in
  let rq := read_request K (cast_u64 (cast_int d)) in
  let res := run o (prop_allocation_hint K type devpath name None) in
  exchanges (snd res) = [(fd, rq, o (Ioctl_dev_properties fd rq))] /\
  (0 <= d <= INT_MAX -> dp_devid rq = d) /\
  (0 <= fst (o (Ioctl_dev_properties fd rq)) ->
   fst res = 0 /\
   printed (snd res) =
   [hint_line (cast_int d) devpath
      (hint_text K (Z.land (dp_type (snd (o (Ioctl_dev_properties fd rq))))
                           (BTRFS_DEV_ALLOCATION_MASK K)))]).
Proof.
  intros Hm Hfd Hst Hfs Hr Hmax Hi Hp Hc fd rq res. subst res.
  destruct (run_find_devid o devpath mnt PATH_MAX rdev r max_id Hm Hfd Hst Hfs Hr)
    as [Hres _].
  replace (Z.to_nat (max_id + 1))
    with (Z.to_nat i + S (Z.to_nat (max_id - i)))%nat in Hres by lia.
  destruct (scan_first o devpath (o (Btrfs_open_dir mnt 1)) rdev
              (Z.to_nat (max_id - i)) i (0, Some (cast_int d))) as [Hs _];
    [lia | exact Hp | intro n; now apply scan_matches |].
  rewrite Hs in Hres. cbn [fst snd] in Hres.
  destruct (resolver_quiet o devpath PATH_MAX) as [Hx Hpr].
  unfold prop_allocation_hint. rewrite run_bind, Hres.
  cbn [fst snd negb Z.eqb bind do int_of_out].
  rewrite run_vis. fold fd.
  destruct (Z.ltb_spec fd 0) as [? | _]; [unfold fd in *; lia |].
  cbn [bind do]. rewrite run_vis. fold (read_request K (cast_u64 (cast_int d))).
  fold rq. rewrite !exchanges_app, !printed_app, Hx, Hpr.
  cbn [fst snd exchanges printed flat_map app].
  destruct (o (Ioctl_dev_properties fd rq)) as [ra cur] eqn:Ha.
  cbn [fst snd].
  split; [| split; [intro Hd; now apply cast_u64_int_small |]].
  - destruct (Z.ltb_spec ra 0); cbn [bind do].
    + rewrite !run_vis. cbn [run fst snd exchanges flat_map app]. reflexivity.
    + destruct (descr_of_value _ _); cbn [bind do]; rewrite !run_vis;
        cbn [run fst snd exchanges flat_map app]; reflexivity.
  - intro Hra. destruct (Z.ltb_spec ra 0) as [? | _]; [lia |].
    pose proof (descr_hint_text K (Z.land (dp_type cur) (BTRFS_DEV_ALLOCATION_MASK K)))
      as Ht.
    destruct (descr_of_value _ _); cbn [bind do]; rewrite !run_vis;
      cbn [run fst snd printed flat_map app]; rewrite <- Ht;
      split; reflexivity.
Qed.

Lemma allocation_hint_targets_match_witness :
  map (fun x => snd (fst x)) (exchanges (snd get_hint_sdb)) = [read_request K0 1] /\
  fst get_hint_sdb = 0 /\
  printed (snd get_hint_sdb) = [hint_line 1 "/dev/sdb" "PREFERRED_DATA"].
Proof.
  destruct (allocation_hint_targets_match K0 fine 1 "/dev/sdb" "allocation_hint"
              "/mnt" 2064 0 1 1 1) as [H1 [_ H2]];
    try reflexivity; try (cbn; lia).
  - unfold INT_MAX. lia.
  - intros j Hj. assert (j = 0) as -> by lia. left. reflexivity.
  - split; [reflexivity | split; [reflexivity |]].
    exists "/dev/sdb". repeat split; reflexivity.
  - destruct H2 as [H2 H3]; [cbn; lia |].
    split; [| split; [exact H2 | exact H3]].
    unfold get_hint_sdb. rewrite H1. reflexivity.
Defined.

Lemma wp_allocation_hint_status (K : headers) (type : Z) (object name : string)
    (value : option string) :
  wp (prop_allocation_hint K type object name value) [] (hint_status value).
Proof.
  unfold prop_allocation_hint. apply wp_bind.
  eapply wp_mono; [| apply wp_find_devid].
  intros t [[ret devid] path] [t1 [-> [Hx [Hp Hd]]]].
  cbn [app fst snd] in *. unfold hint_status.
  destruct (Z.eqb_spec ret 0); cbn [negb wp bind do].
  2: { split; [lia |]. split; [intro; lia |]. split; intro; exact Hp. }
  intros fd. cbn in fd.
  destruct (Z.ltb_spec fd 0); cbn [wp bind do].
  { observe Hx. rewrite Hp. split; [lia |]. split; [intro; lia |].
    split; reflexivity. }
  intros [r cur].
  destruct (Z.ltb_spec r 0); cbn [wp bind do].
  { intros [] []. observe Hx. rewrite Hp. split; [lia |]. split; [intro; lia |].
    split; [reflexivity | intro Hnil; discriminate Hnil]. }
  destruct value as [value |].
  - destruct (value_of_descr value (allocation_hint_description K)) as [v |];
      [| destruct (sscanf_llu value) as [v |];
         [destruct (Z.eqb_spec (Z.land v (not_u64 (BTRFS_DEV_ALLOCATION_MASK K))) 0) |]];
      cbn [negb wp bind do]; repeat exec_step; observe Hx; rewrite Hp.
    all: split; [lia |].
    all: split; [intro;
                 first [ lia
                       | do 5 eexists; split; [reflexivity |];
                         split; [assumption |]; do 2 eexists;
                         split; [reflexivity | cbn [fst]; assumption] ] |].
    all: split; [reflexivity | intro Hnil; discriminate Hnil].
  - destruct (descr_of_value _ _); cbn [wp bind do]; intros [] [];
      observe Hx; rewrite Hp.
    all: split; [lia |].
    all: split; [intro; do 5 eexists; split; [reflexivity |];
                 split; [assumption | reflexivity] |].
    all: split; [intro Hnn; now contradiction Hnn | intro Hnil; discriminate Hnil].
Qed.

(** X17. Whatever the environment answers, [prop_allocation_hint] never
    returns a positive result, and returns 0 only if the read of the
    device properties succeeded and, for a set, the write that follows
    it on the same handle succeeded as well; a set prints nothing, and
    nothing is printed when no device property was asked for. *)
Theorem allocation_hint_status (K : headers) (type : Z) (object name : string)
    (value : option string) (t : trace) (ret : Z) :
  exec (prop_allocation_hint K type object name value) t ret ->
  hint_status value t ret.
Proof.
  intro H. exact (exec_wp _ _ (wp_allocation_hint_status K type object name value) t ret H).
Qed.

Lemma allocation_hint_status_witness :
  hint_status (Some "METADATA_ONLY") (snd set_metadata_only) 0.
Proof.
  exact (allocation_hint_status K0 1 "/dev/sdb" "allocation_hint" (Some "METADATA_ONLY")
           (snd set_metadata_only) (fst set_metadata_only) (exec_run _ _)).
Defined.

(** ** A set of the allocation hint, then a get *)








(** ** The executions of [prop_compression] *)

Lemma wp_out_compression (ret xattr_name buf fd : Z) (pre : trace)
    (Q : trace -> Z -> Prop) :
  Q (pre ++ out_calls xattr_name buf fd) ret ->
  wp (out_compression ret xattr_name buf fd) pre Q.
Proof.
  unfold out_compression, free, out_calls.
  destruct (xattr_name =? 0), (buf =? 0), (0 <=? fd);
    cbn [wp bind do app]; intro H; repeat (intros []);
    rewrite <- ?app_assoc; cbn [app]; rewrite ?app_nil_r in *; exact H.
Qed.

Ltac errno_facts :=
  repeat match goal with
    | H : - ?x = - ENOATTR |- _ =>
        let E := fresh "E" in
        assert (E : x = ENOATTR) by lia; clear H; subst x
    end.

Ltac outcome_here :=
  repeat match goal with |- exists _, _ => eexists end;
  repeat split; first [reflexivity | assumption | cbn [fst snd]; lia].

Ltac outcome :=
  first [ solve [outcome_here] | solve [left; outcome_here] | right; outcome ].

Lemma wp_get_compression (type : Z) (object name : string) :
  wp (prop_compression type object name None) [] (get_compression_outcome object name).
Proof.
  unfold prop_compression. cbn [wp bind do].
  repeat (first [apply wp_out_compression | exec_step]).
  all: errno_facts; subst; cbn [app]; unfold get_compression_outcome; cbv zeta.
  all: outcome.
Qed.

Ltac trace_facts :=
  repeat match goal with
    | H : _ \/ _ |- _ => destruct H
    | H : _ /\ _ |- _ => destruct H
    | H : False |- _ => destruct H
    | H : _ :: _ = _ :: _ |- _ => injection H as H; subst
    | H : (_, _) = (_, _) |- _ => injection H as H; subst
    | H : [] = _ :: _ |- _ => discriminate H
    | H : _ :: _ = [] |- _ => discriminate H
    | H : Some _ = Some _ |- _ => injection H as H; subst
    | H : Some _ = None |- _ => discriminate H
    | H : None = Some _ |- _ => discriminate H
    end.

(** C5.  Every execution of a get of the compression property is one of
    the seven of [get_compression_outcome], each with all of its calls:
    the attribute is asked for whenever the object was opened and the
    name buffer given.  And whenever a read of the attribute fails,
    errno is read and no line is printed; if the read is the one of the
    length (the one with no buffer) and errno is ENOATTR, the get returns
    0 and gives no message to [error]; otherwise it gives the message to
    [error] and returns the negated errno. *)
Theorem compression_get_absent (type : Z) (object name : string)
    (t : trace) (ret : Z) :
  exec (prop_compression type object name None) t ret ->
  get_compression_outcome object name t ret /\
  (forall n buf size sret data,
     In (n, buf, size, (sret, data)) (xattr_gets t) -> sret < 0 ->
     printed t = [] /\
     exists e,
       errnos t = [e] /\
       (buf = 0 -> e = ENOATTR -> ret = 0 /\ errors t = []) /\
       (buf <> 0 \/ e <> ENOATTR ->
        ret = - e /\
        errors t = ["failed to get compression for " +++ object +++ ": %m"])).
Proof.
  intro He.
  pose proof (exec_wp _ _ (wp_get_compression type object name) t ret He) as Ho.
  split; [exact Ho |].
  clear He. unfold get_compression_outcome in Ho; cbv zeta in Ho.
  intros n buf size sret data Hin Hs.
  repeat match type of Ho with
         | _ \/ _ => destruct Ho as [Ho | Ho]
         end.
  all: repeat match type of Ho with
         | exists _, _ => destruct Ho as [? Ho]
         | _ /\ _ => destruct Ho as [-> Ho]
         end.
  all: revert Hin; unfold out_calls;
    repeat match goal with
      | |- context [Z.eqb ?a ?b] => destruct (Z.eqb a b)
      | |- context [Z.leb ?a ?b] => destruct (Z.leb a b)
      end;
    cbn [xattr_gets printed errors errnos flat_map app In]; intro Hin.
  all: trace_facts; try (exfalso; lia).
  all: (split; [reflexivity |]); eexists; (split; [reflexivity |]).
  all: split; [intros; first [congruence | split; reflexivity | exfalso; lia]
              | intros [? | ?]; first [congruence | split; reflexivity | exfalso; lia]].
Qed.

Lemma compression_get_absent_witness :
  get_compression_outcome "/mnt/file" "compression" (snd get_absent) (fst get_absent) /\
  fst get_absent = 0 /\ errors (snd get_absent) = [] /\
  fst get_refused = - EPERM /\
  errors (snd get_refused) = ["failed to get compression for /mnt/file: %m"].
Proof.
  destruct (compression_get_absent 8 "/mnt/file" "compression"
              (snd get_absent) (fst get_absent) (exec_run _ _)) as [Ho Ha].
  destruct (Ha (XATTR_BTRFS_PREFIX +++ "compression") 0 0 (-1) EmptyString)
    as [_ [e [He [Hz _]]]]; [left; reflexivity | lia |].
  injection He as <-.
  destruct (compression_get_absent 8 "/mnt/file" "compression"
              (snd get_refused) (fst get_refused) (exec_run _ _)) as [_ Hr].
  destruct (Hr (XATTR_BTRFS_PREFIX +++ "compression") 4096 4 (-1) EmptyString)
    as [_ [e [He [_ Hn]]]]; [right; left; reflexivity | lia |].
  injection He as <-.
  split; [exact Ho |].
  split; [apply Hz; reflexivity |]. split; [apply Hz; reflexivity |].
  split; apply Hn; left; discriminate.
Defined.

(** What holds of every element of a list that is given. *)
Ltac each_of H :=
  repeat match type of H with
    | forall x, In x (?a :: ?l) -> _ =>
        let H1 := fresh "Hin" in
        pose proof (H a (or_introl eq_refl)) as H1; cbn [fst snd] in H1;
        let H2 := fresh "Hrest" in
        pose proof (fun x (i : In x l) => H x (or_intror i)) as H2;
        clear H; rename H2 into H
    end.

(** C4.  Set the compression property to "none", then get it.  When no
    open and no allocation fails, the write succeeds, and the file
    system deletes an attribute to which the empty value is written,
    these are all the calls: the set opens the object for writing,
    writes the empty value, of size 0 and with the flags 0, to the
    attribute through the descriptor it was given, and closes it; the
    get opens the object, asks for the length of the attribute, which
    fails, reads ENOATTR from errno and closes.  Both return 0; no line
    is printed and no message is given to [error]. *)
Theorem compression_set_none_then_get (type : Z) (object name : string)
    (t : trace) (ret : Z * Z) :
  exec (set_then_get type object name "none") t ret ->
  (forall o, In o (opens t) -> 0 <= snd o) ->
  (forall m, In m (mallocs t) -> snd m <> 0) ->
  (forall w, In w (xattr_writes t) -> 0 <= snd w) ->
  cleared_reads_absent [] [] t ->
  (exists (fd p sret fd' p' : Z) (r : Z * string),
     t = [Ev (Open_file_or_dir3 object O_RDWR) fd;
          Ev (Malloc (XATTR_BTRFS_PREFIX_LEN + strlen name + 1)) p;
          Ev (Fsetxattr fd (XATTR_BTRFS_PREFIX +++ name) EmptyString 0 0) sret;
          Ev (Free p) tt;
          Ev (Close_file_or_dir fd) tt;
          Ev (Open_file_or_dir3 object O_RDONLY) fd';
          Ev (Malloc (XATTR_BTRFS_PREFIX_LEN + strlen name + 1)) p';
          Ev (Fgetxattr fd' (XATTR_BTRFS_PREFIX +++ name) 0 0) r;
          Ev Errno ENOATTR;
          Ev (Free p') tt;
          Ev (Close_file_or_dir fd') tt]) /\
  ret = (0, 0) /\ printed t = [] /\ errors t = [].
Proof.
  revert t ret; refine (exec_wp _ _ _).
  unfold set_then_get, prop_compression, out_compression, free.
  cbn [String.eqb Ascii.eqb Bool.eqb orb strlen String.length Z.of_nat].
  repeat exec_step.
  all: cbn [opens mallocs xattr_writes flat_map app]; intros Ho Hm Hw Henv.
  all: each_of Ho; each_of Hm; each_of Hw; clear Ho Hm Hw.
  all: try (exfalso; lia).
  all: try congruence.
  all: revert Henv;
    repeat (progress
              (cbn [cleared_reads_absent object_of closed String.eqb];
               repeat match goal with
                 | |- context [0 <=? ?a] => rewrite (proj2 (Z.leb_le 0 a)) by lia
                 | |- context [?a <? 0] => rewrite (proj2 (Z.ltb_ge a 0)) by lia
                 | |- context [?a =? ?a] => rewrite (Z.eqb_refl a)
                 end));
    intros [Hread _];
    destruct (Hread object eq_refl (or_introl eq_refl)) as [Hneg Herr];
    cbn [fst next_errno] in Hneg, Herr.
  all: try (exfalso; lia).
  all: specialize (Herr _ eq_refl); try (exfalso; lia).
  all: subst; repeat split. 
  all: repeat eexists.
Qed.

Lemma compression_set_none_then_get_witness :
  fst set_none_get = (0, 0) /\ printed (snd set_none_get) = [] /\
  errors (snd set_none_get) = [].
Proof.
  apply (compression_set_none_then_get 8 "/mnt/file" "compression"
           (snd set_none_get) (fst set_none_get) (exec_run _ _)).
  - intros o [<- | [<- | []]]; cbn; lia.
  - intros m [<- | [<- | []]]; discriminate.
  - intros w [<- | []]. cbn. lia.
  - cbn. split; [| exact I].
    intros object H _. split; [lia |]. intros e He. now injection He.
Defined.


(** ** Handles of the resolver *)

Lemma errnos_app (t1 t2 : trace) : errnos (t1 ++ t2) = errnos t1 ++ errnos t2.
Proof. apply flat_map_app. Qed.

Lemma scan_events_answers (t : trace) :
  Forall scan_event t -> fs_infos t = [] /\ errnos t = [].
Proof.
  induction 1 as [| [c x] t He _ [IH1 IH2]]; [split; reflexivity |].
  destruct c; try contradiction He; cbn [fs_infos errnos flat_map app];
    split; assumption.
Qed.

(** X11. The resolver leaves the handle of the mount point open exactly
    when the file system information is refused and the errno that it
    reads is EPERM: then it returns -EPERM and that handle, and nothing
    else, is still open; in every other execution, the ones where the
    stat of the input path fails among them, nothing is left open. *)
Lemma find_devid_releases (devpath : string) (maxpath : Z)
    (t : trace) (res : Z * option Z * string) :
  exec (btrfs_find_devid_and_mnt devpath maxpath) t res ->
  (eperm_refusal t ->
   fst (fst res) = - EPERM /\ exists fd, 0 <= fd /\ leaked t = [Handle fd]) /\
  (~ eperm_refusal t -> leaked t = []).
Proof.
  revert t res; refine (exec_wp _ _ _).
  unfold btrfs_find_devid_and_mnt. cbn [wp bind do].
  intros [ret path].
  destruct (Z.eqb_spec ret 0); cbn [negb wp bind do app].
  2: { split; [intros [r [m [H _]]]; discriminate H | reflexivity]. }
  intros fd. cbn in fd.
  destruct (Z.ltb_spec fd 0) as [Hfd | Hfd]; cbn [wp bind do app].
  { split; [intros [r [m [H _]]]; discriminate H |]. intros _.
    unfold leaked, leaked_from. cbn [fold_left track].
    destruct (Z.leb_spec 0 fd); [lia | reflexivity]. }
  assert (Hopen : (0 <=? fd) = true) by (apply Z.leb_le; lia).
  assert (Heq : (fd =? fd) = true) by apply Z.eqb_refl.
  intros [r rdev].
  destruct (Z.eqb_spec r 0); cbn [negb wp bind do app].
  2: { intros [] []. split; [intros [r' [m [H _]]]; discriminate H |]. intros _.
       unfold leaked, leaked_from.
       cbn [fold_left track release resource_eqb]. rewrite Hopen.
       cbn [release resource_eqb]. now rewrite Heq. }
  intros [r1 max_id].
  destruct (Z.ltb_spec r1 0); cbn [wp bind do app].
  - intros e1. cbn in e1. destruct (Z.eqb_spec e1 EPERM); cbn [wp bind do app].
    + subst e1. split.
      * intros _. split; [reflexivity |].
        exists fd. split; [exact Hfd |].
        unfold leaked, leaked_from. cbn [fold_left track]. now rewrite Hopen.
      * intro Hn. exfalso. apply Hn. exists r1, max_id.
        split; [reflexivity | split; [assumption | reflexivity]].
    + intros [] []. split.
      * intros [r' [m [_ [_ He]]]]. cbn in He. congruence.
      * intros _. unfold leaked, leaked_from.
        cbn [fold_left track release resource_eqb]. rewrite Hopen.
        cbn [release resource_eqb]. now rewrite Heq.
  - apply wp_bind. eapply wp_mono; [| apply wp_scan_events].
    intros t [ret' devid] [t1 [-> Hs]]. cbn [wp bind do]. intros [].
    destruct (scan_events_answers t1 Hs) as [Hf _].
    split.
    + intros [r' [m [Hi [Hr _]]]]. exfalso.
      rewrite !fs_infos_app, Hf in Hi. cbn in Hi. injection Hi as -> _. lia.
    + intros _. unfold leaked, leaked_from. rewrite !fold_left_app.
      cbn [fold_left track]. rewrite Hopen.
      pose proof (scan_events_hold t1 Hs [Handle fd]) as Hh.
      unfold leaked_from in Hh. rewrite Hh.
      cbn [fold_left track release resource_eqb]. now rewrite Heq.
Qed.

Lemma find_devid_releases_witness :
  (exists fd, 0 <= fd /\ leaked (snd resolve_denied) = [Handle fd]) /\
  leaked (snd resolve_sdb) = [].
Proof.
  split.
  - destruct (find_devid_releases "/dev/sdb" PATH_MAX (snd resolve_denied)
                (fst resolve_denied) (exec_run _ _)) as [H _].
    apply H. exists (-1), 0. split; [reflexivity | split; [lia | reflexivity]].
  - destruct (find_devid_releases "/dev/sdb" PATH_MAX (snd resolve_sdb)
                (fst resolve_sdb) (exec_run _ _)) as [_ H].
    apply H. intros [r [m [Hi [Hr _]]]].
    vm_compute in Hi. injection Hi as <- _. lia.
Defined.

(** ** A set of the allocation hint, from the resolver to the write *)

(** C2.  In an environment that answers a call the same way each time,
    when the resolver finds the input device at an id whose query
    reports the device id [d], the value is accepted and stands for the
    bits [v], and the read of the stored type bits of that device is
    answered with [cur], a set of the allocation hint makes two device
    property exchanges and no more: the read, and a write for the same
    device (the device [d] itself when [d] is at most INT_MAX) that
    selects the type field alone and carries [cur] with the bits of the
    allocation mask replaced by those of [v]: each of the 64 bits
    outside the mask is the one of [cur], each bit inside it the one of
    [v].  The set returns 0 when the write is answered and -4 when it is
    refused, and prints nothing. *)
Theorem allocation_hint_set_merges (K : headers) (o : oracle)
    (type : Z) (devpath name value mnt : string)
    (rdev r max_id i d v ra : Z) (cur : dev_properties) :
  o (Get_btrfs_mount devpath PATH_MAX) = (0, mnt) ->
  0 <= o (Btrfs_open_dir mnt 1) ->
  o (Stat devpath) = (0, rdev) ->
  o (Ioctl_fs_info (o (Btrfs_open_dir mnt 1))) = (r, max_id) ->
  0 <= r -> 0 <= max_id <= INT_MAX ->
  0 <= i <= max_id ->
  (forall j, 0 <= j < i -> candidate_passed o (o (Btrfs_open_dir mnt 1)) rdev j) ->
  candidate_matches o (o (Btrfs_open_dir mnt 1)) rdev i d ->
  accepted_value K value v ->
  let fd := o (Btrfs_open_dir mnt 1) in
  let devid := cast_u64 (cast_int d) in
  o (Ioctl_dev_properties fd (read_request K devid)) = (ra, cur) ->
  0 <= ra ->
  let wq := write_request K devid (merged_type K (dp_type cur) v) in
  let res := run o (prop_allocation_hint K type devpath name (Some value)) in
  exchanges (snd res) =
  [(fd, read_request K devid, (ra, cur)); (fd, wq, o (Ioctl_dev_properties fd wq))] /\
  (0 <= d <= INT_MAX -> dp_devid wq = d) /\
  dp_properties wq = BTRFS_DEV_PROPERTY_TYPE K /\
  (forall n, 0 <= n < 64 ->
     Z.testbit (dp_type wq) n =
     if Z.testbit (BTRFS_DEV_ALLOCATION_MASK K) n then Z.testbit v n
     else Z.testbit (dp_type cur) n) /\
  (0 <= fst (o (Ioctl_dev_properties fd wq)) -> fst res = 0) /\
  (fst (o (Ioctl_dev_properties fd wq)) < 0 -> fst res = -4) /\
  printed (snd res) = [].
Proof.
  intros Hm Hfd Hst Hfs Hr Hmax Hi Hp Hc Hv fd devid Ha Hra wq res. subst res.
  destruct (run_find_devid o devpath mnt PATH_MAX rdev r max_id Hm Hfd Hst Hfs Hr)
    as [Hres _].
  replace (Z.to_nat (max_id + 1))
    with (Z.to_nat i + S (Z.to_nat (max_id - i)))%nat in Hres by lia.
  destruct (scan_first o devpath (o (Btrfs_open_dir mnt 1)) rdev
              (Z.to_nat (max_id - i)) i (0, Some (cast_int d))) as [Hs _];
    [lia | exact Hp | intro n; now apply scan_matches |].
  rewrite Hs in Hres. cbn [fst snd] in Hres.
  destruct (resolver_quiet o devpath PATH_MAX) as [Hx Hpr].
  assert (Hrun :
            exchanges (snd (run o (prop_allocation_hint K type devpath name (Some value)))) =
            [(fd, read_request K devid, (ra, cur));
             (fd, wq, o (Ioctl_dev_properties fd wq))] /\
            fst (run o (prop_allocation_hint K type devpath name (Some value))) =
            (if fst (o (Ioctl_dev_properties fd wq)) <? 0 then -4 else 0) /\
            printed (snd (run o (prop_allocation_hint K type devpath name (Some value)))) = []).
  { unfold prop_allocation_hint. rewrite run_bind, Hres.
    cbn [fst snd negb Z.eqb bind do int_of_out].
    rewrite run_vis. fold fd.
    destruct (Z.ltb_spec fd 0) as [? | _]; [unfold fd in *; lia |].
    cbn [bind do]. rewrite run_vis. fold devid. fold (read_request K devid).
    rewrite Ha.
    destruct (Z.ltb_spec ra 0) as [? | _]; [lia |].
    rewrite !exchanges_app, !printed_app, Hx, Hpr.
    cbn [fst snd exchanges printed flat_map app].
    pose proof (validated_accepted K value v Hv) as Hval. unfold validated in Hval.
    assert (Hw :
              forall p : prog Z,
                p = ('(ret0, _) <-
                       do (Ioctl_dev_properties fd wq) ;;
                     if ret0 <? 0
                     then do (Error ("Cannot perform BTRFS_IOC_DEV_PROPERTIES ioctl on '"
                                     +++ mnt +++ "'")) ;;;
                          do (Close_file_or_dir fd) ;;; Ret (-4)
                     else do (Close_file_or_dir fd) ;;; Ret 0) ->
                exchanges (snd (run o p)) = [(fd, wq, o (Ioctl_dev_properties fd wq))] /\
                fst (run o p) = (if fst (o (Ioctl_dev_properties fd wq)) <? 0 then -4 else 0) /\
                printed (snd (run o p)) = []).
    { intros p ->. cbn [bind do]. rewrite run_vis.
      destruct (o (Ioctl_dev_properties fd wq)) as [rw ans]. cbn [fst snd].
      destruct (Z.ltb_spec rw 0); cbn [bind do]; rewrite !run_vis;
        cbn [run fst snd exchanges printed flat_map app];
        repeat split; reflexivity. }
    destruct (value_of_descr value (allocation_hint_description K)) as [v' |].
    - injection Hval as ->.
      destruct (Hw _ eq_refl) as [H1 [H2 H3]].
      split; [| split].
      + apply (f_equal (cons (fd, read_request K devid, (ra, cur)))) in H1. exact H1.
      + exact H2.
      + exact H3.
    - destruct (sscanf_llu value) as [v' |]; [| discriminate Hval].
      destruct (Z.land v' (not_u64 (BTRFS_DEV_ALLOCATION_MASK K)) =? 0);
        [| discriminate Hval].
      injection Hval as ->. cbn [negb].
      destruct (Hw _ eq_refl) as [H1 [H2 H3]].
      split; [| split].
      + apply (f_equal (cons (fd, read_request K devid, (ra, cur)))) in H1. exact H1.
      + exact H2.
      + exact H3. }
  destruct Hrun as [H1 [H2 H3]].
  split; [exact H1 |].
  split; [intro Hd; now apply cast_u64_int_small |].
  split; [reflexivity |].
  split; [intros n Hn; now apply merged_type_bits |].
  split; [| split; [| exact H3]].
  - intro Hw. rewrite H2. destruct (Z.ltb_spec (fst (o (Ioctl_dev_properties fd wq))) 0);
      [lia | reflexivity].
  - intro Hw. rewrite H2. destruct (Z.ltb_spec (fst (o (Ioctl_dev_properties fd wq))) 0);
      [reflexivity | lia].
Qed.

Lemma allocation_hint_set_merges_witness :
  map (fun x => snd (fst x)) (exchanges (snd set_3_second)) =
  [read_request K0 2; write_request K0 2 11] /\
  fst set_3_second = 0.
Proof.
  destruct (allocation_hint_set_merges K0 two_devices 1 "/dev/sdb" "allocation_hint"
              "3" "/mnt" 2064 0 2 2 2 3 0
              {| dp_devid := 2; dp_properties := 1152921504606846977; dp_type := 13 |})
    as [H1 [_ [_ [_ [H2 _]]]]];
    try reflexivity; try (cbn; lia).
  - unfold INT_MAX. lia.
  - intros j Hj. assert (j = 0 \/ j = 1) as [-> | ->] by lia.
    + left. reflexivity.
    + right. split; [reflexivity |]. cbn. split; [reflexivity |].
      intros [_ H]. vm_compute in H. discriminate H.
  - split; [reflexivity | split; [reflexivity |]].
    exists "/dev/sdb". repeat split; reflexivity.
  - right. split; [| split; reflexivity].
    intros [H | [H | [H | H]]]; discriminate H.
  - split.
    + unfold set_3_second. rewrite H1. reflexivity.
    + apply H2. cbn. lia.
Defined.
